(** * ts-upgrade: the rewrite rules of [transformer.ts] and the pass loop of
      [upgrade], embedded and checked against the specification.

    The syntax tree of the TypeScript compiler is embedded as an inductive
    type, the rule functions of [src/transformer.ts] as functions over it,
    the exceptions of [cast] as an outcome type, and the [while] loop of
    [upgrade] as a fuelled loop over the pass it calls. *)

From Stdlib Require Import String Ascii List Bool Arith ZArith Lia.
Import ListNotations.
Local Open Scope string_scope.

(* ================================================================== *)
(** ** Outcomes: a value, a thrown [Error], or a computation still running *)
(* ================================================================== *)

(** [Throw msg] is a JavaScript exception ([throw new Error(msg)]).
    [OutOfFuel] is not a behaviour of the program: it says that the
    fuel given to a recursive model function did not suffice, that is,
    that the program is still running after that many steps. *)
Inductive Outcome (A : Type) : Type :=
| Return (a : A)
| Throw (msg : string)
| OutOfFuel.

Arguments Return {A} a.
Arguments Throw {A} msg.
Arguments OutOfFuel {A}.

Definition bind {A B : Type} (m : Outcome A) (k : A -> Outcome B) : Outcome B :=
  match m with
  | Return a => k a
  | Throw msg => Throw msg
  | OutOfFuel => OutOfFuel
  end.

Notation "x <- m ;; k" := (bind m (fun x => k))
  (at level 61, m at next level, right associativity).

(* ================================================================== *)
(** ** The syntax tree *)
(* ================================================================== *)

(** The kinds of node the rules look at; every other kind of the compiler
    is [Other] with its name. *)
Module SyntaxKind.

Inductive t : Type :=
| Identifier
| PrivateIdentifier
| NullKeyword
| UndefinedKeyword
| StringLiteral
| NumericLiteral
| ParenthesizedExpression
| VoidExpression
| BinaryExpression
| ConditionalExpression
| PropertyAccessExpression
| ElementAccessExpression
| CallExpression
| Other (name : string).

Definition eqb (a b : t) : bool :=
  match a, b with
  | Identifier, Identifier
  | PrivateIdentifier, PrivateIdentifier
  | NullKeyword, NullKeyword
  | UndefinedKeyword, UndefinedKeyword
  | StringLiteral, StringLiteral
  | NumericLiteral, NumericLiteral
  | ParenthesizedExpression, ParenthesizedExpression
  | VoidExpression, VoidExpression
  | BinaryExpression, BinaryExpression
  | ConditionalExpression, ConditionalExpression
  | PropertyAccessExpression, PropertyAccessExpression
  | ElementAccessExpression, ElementAccessExpression
  | CallExpression, CallExpression => true
  | Other n, Other m => String.eqb n m
  | _, _ => false
  end.

(** [SyntaxKind[kind]]: the name of a kind, as [cast] prints it. *)
Definition name (k : t) : string :=
  match k with
  | Identifier => "Identifier"
  | PrivateIdentifier => "PrivateIdentifier"
  | NullKeyword => "NullKeyword"
  | UndefinedKeyword => "UndefinedKeyword"
  | StringLiteral => "StringLiteral"
  | NumericLiteral => "NumericLiteral"
  | ParenthesizedExpression => "ParenthesizedExpression"
  | VoidExpression => "VoidExpression"
  | BinaryExpression => "BinaryExpression"
  | ConditionalExpression => "ConditionalExpression"
  | PropertyAccessExpression => "PropertyAccessExpression"
  | ElementAccessExpression => "ElementAccessExpression"
  | CallExpression => "CallExpression"
  | Other n => n
  end.

End SyntaxKind.

(** The operator token of a binary expression. *)
Inductive BinaryOperator : Type :=
| AmpersandAmpersandToken
| BarBarToken
| QuestionQuestionToken
| EqualsEqualsToken
| EqualsEqualsEqualsToken
| ExclamationEqualsToken
| ExclamationEqualsEqualsToken
| OtherOperatorToken (text : string).

(** The [name] of a property access: an identifier or a private identifier
    ([#b]). *)
Inductive MemberName : Type :=
| IdentifierName (text : string)
| PrivateIdentifierName (text : string).

(** Type arguments are passed through by the rules and never inspected. *)
Definition TypeNode : Type := string.

(** Nodes.  [questionDotToken] is [true] on the links of an optional chain
    ([a?.b]); the nodes built by [createPropertyAccessChain],
    [createElementAccessChain] and [createCallChain] carry it.  [OtherNode]
    stands for every kind the rules do not look at (statements, the source
    file, other expressions): a kind name and the children that
    [visitEachChild] visits. *)
#[warnings="-register-all"]
Inductive Node : Type :=
| Identifier (text : string)
| NullKeyword
| UndefinedKeyword
| StringLiteral (text : string)
| NumericLiteral (text : string)
| ParenthesizedExpression (expression : Node)
| VoidExpression (expression : Node)
| BinaryExpression (left : Node) (operatorToken : BinaryOperator) (right : Node)
| ConditionalExpression (condition whenTrue whenFalse : Node)
| PropertyAccessExpression (expression : Node) (questionDotToken : bool)
    (name : MemberName)
| ElementAccessExpression (expression : Node) (questionDotToken : bool)
    (argumentExpression : Node)
| CallExpression (expression : Node) (questionDotToken : bool)
    (typeArguments : option (list TypeNode)) (arguments : list Node)
| OtherNode (kindName : string) (children : list Node).

Definition kind (node : Node) : SyntaxKind.t :=
  match node with
  | Identifier _ => SyntaxKind.Identifier
  | NullKeyword => SyntaxKind.NullKeyword
  | UndefinedKeyword => SyntaxKind.UndefinedKeyword
  | StringLiteral _ => SyntaxKind.StringLiteral
  | NumericLiteral _ => SyntaxKind.NumericLiteral
  | ParenthesizedExpression _ => SyntaxKind.ParenthesizedExpression
  | VoidExpression _ => SyntaxKind.VoidExpression
  | BinaryExpression _ _ _ => SyntaxKind.BinaryExpression
  | ConditionalExpression _ _ _ => SyntaxKind.ConditionalExpression
  | PropertyAccessExpression _ _ _ => SyntaxKind.PropertyAccessExpression
  | ElementAccessExpression _ _ _ => SyntaxKind.ElementAccessExpression
  | CallExpression _ _ _ _ => SyntaxKind.CallExpression
  | OtherNode k _ => SyntaxKind.Other k
  end.

Definition memberNameKind (name : MemberName) : SyntaxKind.t :=
  match name with
  | IdentifierName _ => SyntaxKind.Identifier
  | PrivateIdentifierName _ => SyntaxKind.PrivateIdentifier
  end.

(** The type guards of the compiler that the rules call. *)
Definition isIdentifier (node : Node) : bool :=
  match node with Identifier _ => true | _ => false end.

Definition isBinaryExpression (node : Node) : bool :=
  match node with BinaryExpression _ _ _ => true | _ => false end.

Definition isParenthesizedExpression (node : Node) : bool :=
  match node with ParenthesizedExpression _ => true | _ => false end.

Definition isVoidExpression (node : Node) : bool :=
  match node with VoidExpression _ => true | _ => false end.

Definition isPropertyAccessExpression (node : Node) : bool :=
  match node with PropertyAccessExpression _ _ _ => true | _ => false end.

Definition isElementAccessExpression (node : Node) : bool :=
  match node with ElementAccessExpression _ _ _ => true | _ => false end.

Definition isCallExpression (node : Node) : bool :=
  match node with CallExpression _ _ _ _ => true | _ => false end.

Definition isPrivateIdentifier (name : MemberName) : bool :=
  match name with PrivateIdentifierName _ => true | IdentifierName _ => false end.

(* ================================================================== *)
(** ** utils.ts *)
(* ================================================================== *)

(** [skipParens]: the loop strips every enclosing pair of parentheses. *)
Fixpoint skipParens (node : Node) : Node :=
  match node with
  | ParenthesizedExpression expression => skipParens expression
  | _ => node
  end.

(** [cast(expr.name, isIdentifier)], the one use of [cast] in the rules:
    the name itself when it is an identifier, otherwise the exception
    ['invalid cast: ' + SyntaxKind[node.kind]]. *)
Definition cast_isIdentifier (name : MemberName) : Outcome MemberName :=
  match name with
  | IdentifierName _ => Return name
  | PrivateIdentifierName _ =>
      Throw ("invalid cast: " ++ SyntaxKind.name (memberNameKind name))
  end.

(* ================================================================== *)
(** ** Text of nodes *)
(* ================================================================== *)

(** [String.prototype.trim] on the white space of ASCII (tab, line feed,
    vertical tab, form feed, carriage return, space). *)
Definition isWhiteSpace (c : ascii) : bool :=
  let n := nat_of_ascii c in
  (((9 <=? n) && (n <=? 13)) || (n =? 32))%nat.

Fixpoint trimStart (s : string) : string :=
  match s with
  | String c rest => if isWhiteSpace c then trimStart rest else s
  | EmptyString => EmptyString
  end.

Fixpoint trimEnd (s : string) : string :=
  match s with
  | EmptyString => EmptyString
  | String c rest =>
      match trimEnd rest with
      | EmptyString => if isWhiteSpace c then EmptyString else String c EmptyString
      | rest' => String c rest'
      end
  end.

Definition trim (s : string) : string := trimEnd (trimStart s).

Definition dquote : string := String (ascii_of_nat 34) EmptyString.

Definition operatorText (op : BinaryOperator) : string :=
  match op with
  | AmpersandAmpersandToken => "&&"
  | BarBarToken => "||"
  | QuestionQuestionToken => "??"
  | EqualsEqualsToken => "=="
  | EqualsEqualsEqualsToken => "==="
  | ExclamationEqualsToken => "!="
  | ExclamationEqualsEqualsToken => "!=="
  | OtherOperatorToken text => text
  end.

Definition memberNameText (name : MemberName) : string :=
  match name with
  | IdentifierName text => text
  | PrivateIdentifierName text => "#" ++ text
  end.

Fixpoint joinWith (sep : string) (parts : list string) : string :=
  match parts with
  | [] => ""
  | [p] => p
  | p :: rest => p ++ sep ++ joinWith sep rest
  end.

(** A printer of trees in the usual layout (one space around binary and
    ternary operators, none elsewhere).  It adds no parentheses: the only
    ones it prints are the [ParenthesizedExpression] nodes of the tree.  It
    serves as the text of a node of a source file written in that layout,
    and to show results. *)
Fixpoint printNode (node : Node) : string :=
  match node with
  | Identifier text => text
  | NullKeyword => "null"
  | UndefinedKeyword => "undefined"
  | StringLiteral text => dquote ++ text ++ dquote
  | NumericLiteral text => text
  | ParenthesizedExpression e => "(" ++ printNode e ++ ")"
  | VoidExpression e => "void " ++ printNode e
  | BinaryExpression l op r =>
      printNode l ++ " " ++ operatorText op ++ " " ++ printNode r
  | ConditionalExpression c t f =>
      printNode c ++ " ? " ++ printNode t ++ " : " ++ printNode f
  | PropertyAccessExpression e q name =>
      printNode e ++ (if q then "?." else ".") ++ memberNameText name
  | ElementAccessExpression e q a =>
      printNode e ++ (if q then "?." else "") ++ "[" ++ printNode a ++ "]"
  | CallExpression e q targs args =>
      printNode e ++ (if q then "?." else "")
      ++ match targs with
         | Some ts => "<" ++ joinWith ", " ts ++ ">"
         | None => ""
         end
      ++ "(" ++ joinWith ", " (map printNode args) ++ ")"
  | OtherNode _ children => joinWith " " (map printNode children)
  end.

(* ================================================================== *)
(** ** transformer.ts *)
(* ================================================================== *)

(** Modelled from the spec: the enumeration [TypeScriptVersion] of the
    module [types] is not among the sources.  The rules only compare a
    target with the member [v3_7] by [>=], so a version is its rank in the
    enumeration and [v3_7] is a parameter of the rules. *)
Definition TypeScriptVersion : Type := Z.

(** The links of an optional chain: the union type [ChainableExpression]. *)
Inductive ChainableExpression : Type :=
| PropertyAccess (expression : Node) (questionDotToken : bool) (name : MemberName)
| ElementAccess (expression : Node) (questionDotToken : bool)
    (argumentExpression : Node)
| Call (expression : Node) (questionDotToken : bool)
    (typeArguments : option (list TypeNode)) (arguments : list Node).

(** The node a link is, and the type guard [isChainableExpression] with
    the narrowing it performs. *)
Definition chainNode (chain : ChainableExpression) : Node :=
  match chain with
  | PropertyAccess e q name => PropertyAccessExpression e q name
  | ElementAccess e q a => ElementAccessExpression e q a
  | Call e q targs args => CallExpression e q targs args
  end.

Definition isChainableExpression (expr : Node) : bool :=
  isPropertyAccessExpression expr
  || isElementAccessExpression expr
  || isCallExpression expr.

Definition asChainableExpression (expr : Node) : option ChainableExpression :=
  match expr with
  | PropertyAccessExpression e q name => Some (PropertyAccess e q name)
  | ElementAccessExpression e q a => Some (ElementAccess e q a)
  | CallExpression e q targs args => Some (Call e q targs args)
  | _ => None
  end.

(** [chain.expression]: the receiver of a link. *)
Definition chainExpression (chain : ChainableExpression) : Node :=
  match chain with
  | PropertyAccess e _ _ => e
  | ElementAccess e _ _ => e
  | Call e _ _ _ => e
  end.

(** Which branch of a ternary a node is.  The source compares nodes by
    reference ([skipParens(expr.whenTrue) === condBranch]); a tree value
    has no identity, so the branch a node was taken from travels with it. *)
Inductive Branch : Type := WhenTrue | WhenFalse.

(** The factories of the compiler, as the nodes they build from their
    arguments.  The compiler's [createNullishCoalesce] also wraps an operand
    in a [ParenthesizedExpression] where the precedence of [??] requires it
    (an operand that is itself a [??] on the right, say); that is not
    modelled, and a result written [createNullishCoalesce l r] below stands
    for what the factory builds from [l] and [r]. *)
Definition createNullishCoalesce (left right : Node) : Node :=
  BinaryExpression left QuestionQuestionToken right.

Definition createPropertyAccessChain (expression : Node) (name : MemberName) : Node :=
  PropertyAccessExpression expression true name.

Definition createElementAccessChain (expression index : Node) : Node :=
  ElementAccessExpression expression true index.

Definition createCallChain (expression : Node)
    (typeArguments : option (list TypeNode)) (arguments : list Node) : Node :=
  CallExpression expression true typeArguments arguments.

(** The JavaScript [x || y] on values that are a node or [undefined]. *)
Definition orElse {A : Type} (x : option A) (y : option A) : option A :=
  match x with Some _ => x | None => y end.

Definition isEqualityOperator (op : BinaryOperator) : bool :=
  match op with
  | EqualsEqualsToken | ExclamationEqualsToken => true
  | _ => false
  end.

Definition isStrictEqualityOperator (op : BinaryOperator) : bool :=
  match op with
  | EqualsEqualsEqualsToken | ExclamationEqualsEqualsToken => true
  | _ => false
  end.

Section Transformer.

(** [node.getText(sourceFile)]: the text of a node of the source file.  It
    is taken as a function of the tree.  Two things of the compiler are
    therefore outside the model: two occurrences of one tree that are
    written differently (white space, comments) have different texts, and
    a node built by a factory has no text ([getText] fails on it).  The
    general statements below that turn on an answer of
    [isEqualityExpression] take that answer as a hypothesis. *)
Variable getText : Node -> string.

(** [TypeScriptVersion.v3_7] and the [target] the transformer is
    created for. *)
Variable v3_7 : TypeScriptVersion.
Variable target : TypeScriptVersion.

Definition isEqualityExpression (left right : Node) : bool :=
  if negb (SyntaxKind.eqb (kind left) (kind right)) then false
  else
    match left, right with
    | Identifier l, Identifier r =>
        if String.eqb l r then true
        else String.eqb (trim (getText left)) (trim (getText right))
    | _, _ => String.eqb (trim (getText left)) (trim (getText right))
    end.

Definition binaryCompare
    (cb : Node -> BinaryOperator -> Node -> option Node)
    (left : Node) (operator : BinaryOperator) (right : Node) : option Node :=
  orElse (cb left operator right) (cb right operator left).

Definition doEqualityOrNotToNullCompare
    (left : Node) (operator : BinaryOperator) (right : Node) : option Node :=
  if isEqualityOperator operator
     && SyntaxKind.eqb (kind right) SyntaxKind.NullKeyword
  then Some left else None.

Definition doStrictEqualityOrNotToUndefinedCompare
    (left : Node) (operator : BinaryOperator) (right : Node) : option Node :=
  if isStrictEqualityOperator operator
     && (SyntaxKind.eqb (kind right) SyntaxKind.UndefinedKeyword
         || match right with
            | Identifier text => String.eqb text "undefined"
            | _ => false
            end)
  then Some left else None.

Definition doStrictEqualityOrNotToNullCompare
    (left : Node) (operator : BinaryOperator) (right : Node) : option Node :=
  if isStrictEqualityOperator operator
     && SyntaxKind.eqb (kind right) SyntaxKind.NullKeyword
  then Some left else None.

Definition doStrictEqualityOrNotToVoidExpressionCompare
    (left : Node) (operator : BinaryOperator) (right : Node) : option Node :=
  if isStrictEqualityOperator operator && isVoidExpression right
  then Some left else None.

(** The four classifiers take a binary expression, given here by its
    three fields [left], [operatorToken] and [right]. *)
Definition isEqualityOrNotToNull
    (left : Node) (operatorToken : BinaryOperator) (right : Node) : option Node :=
  binaryCompare doEqualityOrNotToNullCompare
    (skipParens left) operatorToken (skipParens right).

Definition isStrictEqualityOrNotToUndefined
    (left : Node) (operatorToken : BinaryOperator) (right : Node) : option Node :=
  binaryCompare doStrictEqualityOrNotToUndefinedCompare
    (skipParens left) operatorToken (skipParens right).

Definition isStrictEqualityOrNotToNull
    (left : Node) (operatorToken : BinaryOperator) (right : Node) : option Node :=
  binaryCompare doStrictEqualityOrNotToNullCompare
    (skipParens left) operatorToken (skipParens right).

Definition isStrictEqualityOrNotToVoidExpression
    (left : Node) (operatorToken : BinaryOperator) (right : Node) : option Node :=
  binaryCompare doStrictEqualityOrNotToVoidExpressionCompare
    (skipParens left) operatorToken (skipParens right).

Definition isNullableEqualityExpression
    (left : Node) (operatorToken : BinaryOperator) (right : Node) : option Node :=
  orElse (isEqualityOrNotToNull left operatorToken right)
    (orElse (isStrictEqualityOrNotToNull left operatorToken right)
       (orElse (isStrictEqualityOrNotToUndefined left operatorToken right)
          (isStrictEqualityOrNotToVoidExpression left operatorToken right))).

Definition isBinaryNullableEqualityOrNotExpression
    (left : Node) (operatorToken : BinaryOperator) (right : Node) : option Node :=
  match operatorToken with
  | BarBarToken | AmpersandAmpersandToken =>
      match left, right with
      | BinaryExpression ll lop lr, BinaryExpression rl rop rr =>
          match isNullableEqualityExpression ll lop lr,
                isNullableEqualityExpression rl rop rr with
          | Some l, Some r => if isEqualityExpression l r then Some l else None
          | _, _ => None
          end
      | _, _ => None
      end
  | _ => None
  end.

(** [getNullableConditionTarget(expr)], given [expr.condition]. *)
Definition getNullableConditionTarget (exprCondition : Node) : Node :=
  let condition := skipParens exprCondition in
  match condition with
  | BinaryExpression l op r =>
      match isNullableEqualityExpression l op r with
      | Some target => target
      | None =>
          match isBinaryNullableEqualityOrNotExpression l op r with
          | Some target => target
          | None => condition
          end
      end
  | _ => condition
  end.

(** [getNullishTargetBranch(cond)]: the branch, and which one it is. *)
Definition getNullishTargetBranch (condition whenTrue whenFalse : Node)
    : option (Branch * Node) :=
  match condition with
  | BinaryExpression _ op _ =>
      match op with
      | EqualsEqualsToken
      | EqualsEqualsEqualsToken
      | BarBarToken => Some (WhenFalse, whenFalse)
      | ExclamationEqualsToken
      | ExclamationEqualsEqualsToken
      | AmpersandAmpersandToken => Some (WhenTrue, whenTrue)
      | _ => None
      end
  | _ => None
  end.

Definition getNullishCondBranch (condition whenTrue whenFalse : Node)
    (nullableConditionTarget : Node) : option (Branch * Node) :=
  match getNullishTargetBranch condition whenTrue whenFalse with
  | None => None
  | Some (branch, target) =>
      let left := skipParens target in
      let right := skipParens nullableConditionTarget in
      if isEqualityExpression left right then Some (branch, left) else None
  end.

(** The first loop of [getOptionalChains]: walk down the left spine of
    [&&] expressions, putting each right operand in front of [chains];
    [None] is the [return undefined] of a right operand that is no link. *)
Fixpoint collectChains (expression : Node) (chains : list ChainableExpression)
    : option (list ChainableExpression) :=
  match expression with
  | BinaryExpression l AmpersandAmpersandToken r =>
      match asChainableExpression r with
      | None => None
      | Some chain => collectChains l (chain :: chains)
      end
  | _ => Some chains
  end.

(** The second loop of [getOptionalChains], from [i = 1] on: [false] is
    its [return undefined]. *)
Fixpoint checkChains (prefix : ChainableExpression)
    (rest : list ChainableExpression) : bool :=
  match rest with
  | [] => true
  | chain :: rest' =>
      if negb (isEqualityExpression (chainNode prefix) (chainExpression chain))
      then false
      else if match chain with
              | PropertyAccess _ _ name => isPrivateIdentifier name
              | _ => false
              end
      then false
      else checkChains chain rest'
  end.

Definition getOptionalChains (expr : Node) : option (list ChainableExpression) :=
  match collectChains expr [] with
  | None => None
  | Some chains =>
      match chains with
      | [] => None
      | first :: rest => if checkChains first rest then Some chains else None
      end
  end.

(** *** The visitor.  The functions below are the closures that call
    [visitor]; they take it as the argument [visit]. *)
Section Visit.

Variable visit : Node -> Outcome Node.

Fixpoint visitNodes (nodes : list Node) : Outcome (list Node) :=
  match nodes with
  | [] => Return []
  | node :: rest =>
      node' <- visit node ;;
      rest' <- visitNodes rest ;;
      Return (node' :: rest')
  end.

(** [visitEachChild(node, visitor, context)]: the node with each of
    its children replaced by what the visitor returns for it. *)
Definition visitEachChild (node : Node) : Outcome Node :=
  match node with
  | Identifier _ | NullKeyword | UndefinedKeyword
  | StringLiteral _ | NumericLiteral _ => Return node
  | ParenthesizedExpression e =>
      e' <- visit e ;; Return (ParenthesizedExpression e')
  | VoidExpression e =>
      e' <- visit e ;; Return (VoidExpression e')
  | BinaryExpression l op r =>
      l' <- visit l ;; r' <- visit r ;; Return (BinaryExpression l' op r')
  | ConditionalExpression c t f =>
      c' <- visit c ;; t' <- visit t ;; f' <- visit f ;;
      Return (ConditionalExpression c' t' f')
  | PropertyAccessExpression e q name =>
      e' <- visit e ;; Return (PropertyAccessExpression e' q name)
  | ElementAccessExpression e q a =>
      e' <- visit e ;; a' <- visit a ;;
      Return (ElementAccessExpression e' q a')
  | CallExpression e q targs args =>
      e' <- visit e ;; args' <- visitNodes args ;;
      Return (CallExpression e' q targs args')
  | OtherNode k children =>
      children' <- visitNodes children ;; Return (OtherNode k children')
  end.

Definition createOptionalChainByChainableExpression
    (expr : ChainableExpression) (left : Node) : Outcome Node :=
  match expr with
  | PropertyAccess _ _ name =>
      left' <- visitEachChild left ;;
      name' <- cast_isIdentifier name ;;
      Return (createPropertyAccessChain left' name')
  | ElementAccess _ _ argumentExpression =>
      left' <- visitEachChild left ;;
      index <- visitEachChild argumentExpression ;;
      Return (createElementAccessChain left' index)
  | Call _ _ typeArguments arguments =>
      left' <- visitEachChild left ;;
      arguments' <- visitNodes arguments ;;
      Return (createCallChain left' typeArguments arguments')
  end.

(** The [for] loop of [createOptionalChains], from [i = 1] on. *)
Fixpoint createOptionalChainsFrom (lastChain : Node)
    (rest : list ChainableExpression) : Outcome Node :=
  match rest with
  | [] => Return lastChain
  | chain :: rest' =>
      lastChain' <- createOptionalChainByChainableExpression chain lastChain ;;
      createOptionalChainsFrom lastChain' rest'
  end.

(** On an empty array [chains[0].expression] is a [TypeError];
    [getOptionalChains] never returns one. *)
Definition createOptionalChains (chains : list ChainableExpression)
    : Outcome Node :=
  match chains with
  | [] => Throw "TypeError: Cannot read property 'expression' of undefined"
  | fistChain :: rest =>
      lastChain <- createOptionalChainByChainableExpression
                     fistChain (chainExpression fistChain) ;;
      createOptionalChainsFrom lastChain rest
  end.

Definition upgradeBinaryExpression (expr : Node) : Outcome Node :=
  match getOptionalChains expr with
  | Some optionalChains => createOptionalChains optionalChains
  | None => visitEachChild expr
  end.

(** [upgradeConditionalExpression(expr)], [expr] given by its fields. *)
Definition upgradeConditionalExpression (condition whenTrue whenFalse : Node)
    : Outcome Node :=
  let expr := ConditionalExpression condition whenTrue whenFalse in
  if (target >=? v3_7)%Z then
    let nullableConditionTarget := getNullableConditionTarget condition in
    match getNullishCondBranch condition whenTrue whenFalse
            nullableConditionTarget with
    | Some (branch, condBranch) =>
        let fallbackBranch :=
          match branch with
          | WhenTrue => whenFalse
          | WhenFalse => whenTrue
          end in
        left' <- visitEachChild nullableConditionTarget ;;
        right' <- visitEachChild fallbackBranch ;;
        Return (createNullishCoalesce left' right')
    | None => visitEachChild expr
    end
  else visitEachChild expr.

End Visit.

(** [visitor], with the depth of its recursion bounded by [fuel]: the
    rules call it again on nodes they have just built, so it is not a
    recursion on the structure of the tree. *)
Fixpoint visitor (fuel : nat) (node : Node) : Outcome Node :=
  match fuel with
  | O => OutOfFuel
  | S fuel' =>
      match node with
      | ConditionalExpression condition whenTrue whenFalse =>
          upgradeConditionalExpression (visitor fuel')
            condition whenTrue whenFalse
      | BinaryExpression _ _ _ =>
          upgradeBinaryExpression (visitor fuel') node
      | _ => visitEachChild (visitor fuel') node
      end
  end.

End Transformer.

(* ================================================================== *)
(** ** index.ts: the pass loop of [upgrade] *)
(* ================================================================== *)

(** The edits of the compiler's change tracker: a span of the text and
    the text that replaces it, grouped by file. *)
Record TextChange : Type := {
  spanStart : nat;
  spanLength : nat;
  newText : string
}.

Record FileTextChanges : Type := {
  fileName : string;
  textChanges : list TextChange
}.

(** What one pass hands to the loop: the value of [ChangeTracker.with]
    and the flag read from [proxyChangeTracker.needAnotherPass()]. *)
Record PassResult : Type := {
  changes : list FileTextChanges;
  needAnotherPass : bool
}.

Section Upgrade.

(** [textChanges.applyChanges] of the compiler. *)
Variable applyChanges : string -> list TextChange -> string.

(** Modelled from the spec: the walk [visit] of the module [visitor] and
    the class [ProxyChangesTracker] of the module [changes] are not among
    the sources.  [pass target text] is one pass over the document
    [text]: parse it, walk the tree offering each node to the rules,
    collect the replacements as edits, and record whether at least one
    replacement occurred.  A pass may throw. *)
Variable pass : TypeScriptVersion -> string -> Outcome PassResult.

(** [changes.forEach((change) => { text = applyChanges(text, change.textChanges) })] *)
Definition applyAll (text : string) (changes : list FileTextChanges) : string :=
  fold_left (fun text change => applyChanges text (textChanges change))
    changes text.

(** The [while (needAnotherPass)] loop.  [document] is the file held by
    the host, read at the top of the body ([sourceFile.getText()]) and
    written at its bottom ([host.writeFile]); [i] is the counter that
    [console.log('pass', i++)] prints.  [fuel] bounds the number of
    passes of the model, not of the program. *)
Fixpoint passes (target : TypeScriptVersion) (fuel : nat)
    (document : string) (i : nat) : Outcome string :=
  match fuel with
  | O => OutOfFuel
  | S fuel' =>
      result <- pass target document ;;
      let text := applyAll document (changes result) in
      if needAnotherPass result
      then passes target fuel' text (S i)
      else Return text
  end.

Definition upgrade (fuel : nat) (code : string) (target : TypeScriptVersion)
    : Outcome string :=
  passes target fuel code 0.

(** [quiesces target document n text]: from [document], the first [n - 1]
    passes each ask for another pass, the [n]-th does not, and [text] is
    the document it leaves. *)
Inductive quiesces (target : TypeScriptVersion)
    : string -> nat -> string -> Prop :=
| quiesces_done : forall document result,
    pass target document = Return result ->
    needAnotherPass result = false ->
    quiesces target document 1 (applyAll document (changes result))
| quiesces_again : forall document result n text,
    pass target document = Return result ->
    needAnotherPass result = true ->
    quiesces target (applyAll document (changes result)) n text ->
    quiesces target document (S n) text.

End Upgrade.

(* ================================================================== *)
(** ** Shapes of trees named in the statements *)
(* ================================================================== *)

(** [isBinaryExpression(x) && x.operatorToken.kind === AmpersandAmpersandToken],
    the condition of the first loop of [getOptionalChains]. *)
Definition isAmpersandAmpersandExpression (node : Node) : bool :=
  match node with
  | BinaryExpression _ AmpersandAmpersandToken _ => true
  | _ => false
  end.

(** The two operands that [doStrictEqualityOrNotToUndefinedCompare] takes
    for [undefined]: the keyword and the identifier of that name. *)
Definition isUndefinedOperand (node : Node) : Prop :=
  node = UndefinedKeyword \/ node = Identifier "undefined".

(* ================================================================== *)
(** ** The comparator as the specification words it *)
(* ================================================================== *)

(** Section 4.1 of the specification: two expressions are equal if both
    are identifiers with identical names, or their rendered source text,
    with surrounding parentheses stripped, is identical. *)
Definition spec_equal (getText : Node -> string) (left right : Node) : bool :=
  match left, right with
  | Identifier l, Identifier r => String.eqb l r
  | _, _ => false
  end
  || String.eqb (getText (skipParens left)) (getText (skipParens right)).

(** Section 4.5 and 7 of the specification: a pass-count safety cap.  With
    a cap of [cap] passes, a run whose passes all return either comes to
    rest within [cap] passes or fails with an error; it is never left
    looping. *)
Definition spec_passCap (cap : nat) : Prop :=
  forall applyChanges (pass : TypeScriptVersion -> string -> PassResult)
         code target,
    (exists n text,
       n <= cap
       /\ quiesces applyChanges (fun v t => Return (pass v t)) target code n text)
    \/ (exists fuel msg,
          upgrade applyChanges (fun v t => Return (pass v t)) fuel code target
          = Throw msg).

(* ================================================================== *)
(** ** Sample trees and a sample instance of the loop's collaborators *)
(* ================================================================== *)

Module Sample.

Definition a : Node := Identifier "a".
Definition b : Node := Identifier "b".
Definition c : Node := Identifier "c".
Definition x : Node := Identifier "x".
Definition undefined : Node := Identifier "undefined".

Definition and (l r : Node) : Node := BinaryExpression l AmpersandAmpersandToken r.
Definition or (l r : Node) : Node := BinaryExpression l BarBarToken r.
Definition dot (e : Node) (n : string) : Node :=
  PropertyAccessExpression e false (IdentifierName n).
Definition qdot (e : Node) (n : string) : Node :=
  PropertyAccessExpression e true (IdentifierName n).

(** [a.b], [a.b["c"]], [a.b["c"]()] *)
Definition a_b : Node := dot a "b".
Definition a_b_c : Node := ElementAccessExpression a_b false (StringLiteral "c").
Definition a_b_c_call : Node := CallExpression a_b_c false None [].

(** [a && a.#b] *)
Definition private_guard : Node :=
  and a (PropertyAccessExpression a false (PrivateIdentifierName "b")).

(** [a && a.b && a.b.#c] *)
Definition private_tail : Node :=
  and (and a a_b) (PropertyAccessExpression a_b false (PrivateIdentifierName "c")).

(** [a && a.b] and [x && a.b] *)
Definition guard : Node := and a a_b.
Definition unrelated_guard : Node := and x a_b.

(** [a && a.b && a.b.c] and [a?.b?.c] *)
Definition guard3 : Node := and (and a a_b) (dot a_b "c").
Definition chain3 : Node := qdot (qdot a "b") "c".

(** [a && a.b && a.b["c"] && a.b["c"]()] and [a?.b?.["c"]?.()] *)
Definition long_guard : Node := and (and (and a a_b) a_b_c) a_b_c_call.
Definition long_chain : Node :=
  CallExpression
    (ElementAccessExpression (qdot a "b") true (StringLiteral "c"))
    true None [].

(** [a === null || a === undefined ? b : a] *)
Definition ternary_or : Node :=
  ConditionalExpression
    (or (BinaryExpression a EqualsEqualsEqualsToken NullKeyword)
        (BinaryExpression a EqualsEqualsEqualsToken undefined))
    b a.

(** [a !== null && a !== undefined ? a : b] *)
Definition ternary_and : Node :=
  ConditionalExpression
    (and (BinaryExpression a ExclamationEqualsEqualsToken NullKeyword)
         (BinaryExpression a ExclamationEqualsEqualsToken undefined))
    a b.

(** [a ?? b] *)
Definition coalesce : Node := createNullishCoalesce a b.

(** [a == undefined ? b : a] *)
Definition ternary_loose : Node :=
  ConditionalExpression (BinaryExpression a EqualsEqualsToken undefined) b a.

(** [a && b ? a && b : c] and [(a && b) ?? c] *)
Definition ternary_self : Node := ConditionalExpression (and a b) (and a b) c.
Definition coalesce_self : Node := createNullishCoalesce (and a b) c.

(** [(a && b) ?? c], with its parentheses *)
Definition coalesce_self_parenthesized : Node :=
  BinaryExpression (ParenthesizedExpression (and a b)) QuestionQuestionToken c.

(** [x && a.b["c"]] and [x && a.b["c"]()] *)
Definition unrelated_element_guard : Node := and x a_b_c.
Definition unrelated_call_guard : Node := and x a_b_c_call.

(** A version enumeration with [v3_7] at rank 7. *)
Definition v3_7 : TypeScriptVersion := 7%Z.
Definition v3_6 : TypeScriptVersion := 6%Z.
Definition v3_8 : TypeScriptVersion := 8%Z.

(** [textChanges.applyChanges]: the edits are applied from the last to
    the first, each replacing its span of the text. *)
Definition applyChanges (text : string) (changes : list TextChange) : string :=
  fold_right
    (fun change text =>
       substring 0 (spanStart change) text
       ++ newText change
       ++ substring (spanStart change + spanLength change)
            (String.length text - (spanStart change + spanLength change)) text)
    text changes.

(** A parser that knows the sample trees by their text, and a pass that
    offers the tree to [visitor] and replaces the whole text when the
    result prints differently. *)
Definition trees : list Node :=
  [guard; guard3; chain3; long_guard; long_chain; ternary_or; ternary_and;
   coalesce; ternary_loose; ternary_self; coalesce_self; qdot a "b"].

Definition parse (text : string) : option Node :=
  find (fun tree => String.eqb (printNode tree) text) trees.

Definition pass (target : TypeScriptVersion) (text : string) : Outcome PassResult :=
  match parse text with
  | None => Return {| changes := []; needAnotherPass := false |}
  | Some tree =>
      tree' <- visitor printNode v3_7 target 16 tree ;;
      if String.eqb (printNode tree') text
      then Return {| changes := []; needAnotherPass := false |}
      else Return {| changes :=
                       [ {| fileName := "dummy.ts";
                            textChanges :=
                              [ {| spanStart := 0;
                                   spanLength := String.length text;
                                   newText := printNode tree' |} ] |} ];
                     needAnotherPass := true |}
  end.

(** A pass that asks for another pass on every document and edits
    nothing. *)
Definition restless (_ : TypeScriptVersion) (_ : string) : Outcome PassResult :=
  Return {| changes := []; needAnotherPass := true |}.

End Sample.

(* ================================================================== *)
(** ** utils.ts: the helpers the rules do not call *)
(* ================================================================== *)

(** [lastOrUndefined(list)]: [list] is an array or [undefined].  [T] is
    the type of the values of the program, [undefined] among them: the
    result does not tell an element that is [undefined] from no element. *)
Section LastOrUndefined.

Variable T : Type.
Variable undefined : T.

Definition lastOrUndefined (list : option (list T)) : T :=
  match list with
  | Some l =>
      if negb (Nat.eqb (length l) 0)
      then nth (length l - 1) l undefined
      else undefined
  | None => undefined
  end.

End LastOrUndefined.

(* ================================================================== *)
(** ** Guard chains, links and measures named in the statements *)
(* ================================================================== *)

(** [guardChain x [r1; ...; rn]] is the left-associated
    [((x && r1) && ...) && rn]. *)
Definition guardChain (x : Node) (links : list Node) : Node :=
  fold_left (fun acc link => BinaryExpression acc AmpersandAmpersandToken link)
    links x.

Definition isPrivateLink (chain : ChainableExpression) : bool :=
  match chain with
  | PropertyAccess _ _ name => isPrivateIdentifier name
  | _ => false
  end.

(** Each link after the first stands on the link before it, as the
    comparator sees it, and is no private member access. *)
Definition linked (getText : Node -> string)
    (chains : list ChainableExpression) : Prop :=
  forall i before chain,
    nth_error chains i = Some before ->
    nth_error chains (S i) = Some chain ->
    isEqualityExpression getText (chainNode before) (chainExpression chain) = true
    /\ isPrivateLink chain = false.

(** One step of an access path: [.name], [[argument]] or [(arguments)]. *)
Inductive Step : Type :=
| MemberStep (name : string)
| ElementStep (argumentExpression : Node)
| CallStep (typeArguments : option (list TypeNode)) (arguments : list Node).

(** The access [receiver.name], [receiver[argument]] or
    [receiver(arguments)], as a link and as a node with or without [?.]. *)
Definition linkOn (receiver : Node) (step : Step) : ChainableExpression :=
  match step with
  | MemberStep name => PropertyAccess receiver false (IdentifierName name)
  | ElementStep a => ElementAccess receiver false a
  | CallStep targs args => Call receiver false targs args
  end.

Definition access (q : bool) (receiver : Node) (step : Step) : Node :=
  match step with
  | MemberStep name => PropertyAccessExpression receiver q (IdentifierName name)
  | ElementStep a => ElementAccessExpression receiver q a
  | CallStep targs args => CallExpression receiver q targs args
  end.

(** [linksFrom a [.b; .c]] is [[a.b; a.b.c]]: each link on the one before. *)
Fixpoint linksFrom (receiver : Node) (steps : list Step)
    : list ChainableExpression :=
  match steps with
  | [] => []
  | step :: rest =>
      linkOn receiver step :: linksFrom (access false receiver step) rest
  end.

(** The optional form of a link on a receiver already built: [left?.name],
    [left?.[argument]] or [left?.(arguments)].  The link's own receiver
    is not in it. *)
Definition optionalLink (left : Node) (chain : ChainableExpression) : Node :=
  match chain with
  | PropertyAccess _ _ name => PropertyAccessExpression left true name
  | ElementAccess _ _ a => ElementAccessExpression left true a
  | Call _ _ targs args => CallExpression left true targs args
  end.

(** The optional chain of the links [first :: rest]: it starts from the
    receiver of [first] and takes from each link its name, argument or
    arguments. *)
Definition collapsed (first : ChainableExpression)
    (rest : list ChainableExpression) : Node :=
  fold_left optionalLink rest (optionalLink (chainExpression first) first).

(** The children that [visitEachChild] hands to the visitor. *)
Definition childrenOf (node : Node) : list Node :=
  match node with
  | Identifier _ | NullKeyword | UndefinedKeyword
  | StringLiteral _ | NumericLiteral _ => []
  | ParenthesizedExpression e | VoidExpression e => [e]
  | BinaryExpression l _ r => [l; r]
  | ConditionalExpression c t f => [c; t; f]
  | PropertyAccessExpression e _ _ => [e]
  | ElementAccessExpression e _ a => [e; a]
  | CallExpression e _ _ args => e :: args
  | OtherNode _ children => children
  end.

Fixpoint height (node : Node) : nat :=
  match node with
  | Identifier _ | NullKeyword | UndefinedKeyword
  | StringLiteral _ | NumericLiteral _ => 0
  | ParenthesizedExpression e | VoidExpression e => S (height e)
  | BinaryExpression l _ r => S (Nat.max (height l) (height r))
  | ConditionalExpression c t f =>
      S (Nat.max (height c) (Nat.max (height t) (height f)))
  | PropertyAccessExpression e _ _ => S (height e)
  | ElementAccessExpression e _ a => S (Nat.max (height e) (height a))
  | CallExpression e _ _ args =>
      S (Nat.max (height e) (list_max (map height args)))
  | OtherNode _ children => S (list_max (map height children))
  end.

(** A tree that offers the rules nothing: every [&&] in it has a right
    operand that is no member, element or call access, and it has a
    ternary only when [ternaries] allows. *)
Fixpoint noCandidate (ternaries : bool) (node : Node) : bool :=
  match node with
  | Identifier _ | NullKeyword | UndefinedKeyword
  | StringLiteral _ | NumericLiteral _ => true
  | ParenthesizedExpression e | VoidExpression e => noCandidate ternaries e
  | BinaryExpression l op r =>
      match op with
      | AmpersandAmpersandToken => negb (isChainableExpression r)
      | _ => true
      end
      && noCandidate ternaries l && noCandidate ternaries r
  | ConditionalExpression c t f =>
      ternaries && noCandidate ternaries c
      && noCandidate ternaries t && noCandidate ternaries f
  | PropertyAccessExpression e _ _ => noCandidate ternaries e
  | ElementAccessExpression e _ a =>
      noCandidate ternaries e && noCandidate ternaries a
  | CallExpression e _ _ args =>
      noCandidate ternaries e && forallb (noCandidate ternaries) args
  | OtherNode _ children => forallb (noCandidate ternaries) children
  end.

(** The argument or arguments of a link offer the rules nothing. *)
Definition linkNoCandidate (ternaries : bool) (chain : ChainableExpression)
    : bool :=
  match chain with
  | PropertyAccess _ _ _ => true
  | ElementAccess _ _ a => noCandidate ternaries a
  | Call _ _ _ args => forallb (noCandidate ternaries) args
  end.

(** A tree with no ternary in it. *)
Fixpoint noTernary (node : Node) : bool :=
  match node with
  | Identifier _ | NullKeyword | UndefinedKeyword
  | StringLiteral _ | NumericLiteral _ => true
  | ParenthesizedExpression e | VoidExpression e => noTernary e
  | BinaryExpression l _ r => noTernary l && noTernary r
  | ConditionalExpression _ _ _ => false
  | PropertyAccessExpression e _ _ => noTernary e
  | ElementAccessExpression e _ a => noTernary e && noTernary a
  | CallExpression e _ _ args => noTernary e && forallb noTernary args
  | OtherNode _ children => forallb noTernary children
  end.

(** A tree with no private name in it. *)
Fixpoint noPrivate (node : Node) : bool :=
  match node with
  | Identifier _ | NullKeyword | UndefinedKeyword
  | StringLiteral _ | NumericLiteral _ => true
  | ParenthesizedExpression e | VoidExpression e => noPrivate e
  | BinaryExpression l _ r => noPrivate l && noPrivate r
  | ConditionalExpression c t f => noPrivate c && noPrivate t && noPrivate f
  | PropertyAccessExpression e _ name =>
      negb (isPrivateIdentifier name) && noPrivate e
  | ElementAccessExpression e _ a => noPrivate e && noPrivate a
  | CallExpression e _ _ args => noPrivate e && forallb noPrivate args
  | OtherNode _ children => forallb noPrivate children
  end.

(** The operators under which [getNullishTargetBranch] names a branch. *)
Definition isGuardOperator (op : BinaryOperator) : bool :=
  match op with
  | EqualsEqualsToken | EqualsEqualsEqualsToken | BarBarToken
  | ExclamationEqualsToken | ExclamationEqualsEqualsToken
  | AmpersandAmpersandToken => true
  | _ => false
  end.

(** A computation whose only exception, if it has one, is the failed
    [cast] of a private name. *)
Definition onlyCastFailure {A : Type} (m : Outcome A) : Prop :=
  forall msg, m = Throw msg -> msg = "invalid cast: PrivateIdentifier".

(** A computation that ends, with a tree no higher than [bound] when it
    returns one. *)
Definition endsWithin (bound : nat) (m : Outcome Node) : Prop :=
  match m with
  | Return node => height node <= bound
  | Throw _ => True
  | OutOfFuel => False
  end.

(** A computation that does not throw, and returns a tree with no private
    name when it returns one. *)
Definition staysPublic (m : Outcome Node) : Prop :=
  match m with
  | Return node => noPrivate node = true
  | Throw _ => False
  | OutOfFuel => True
  end.

(* ================================================================== *)
(** ** A second sample pass *)
(* ================================================================== *)

Module Sample2.

(** [a?.b && a.b.#c], what one call of the visitor makes of
    [a && a.b && a.b.#c]. *)
Definition private_rest : Node :=
  Sample.and (Sample.qdot Sample.a "b")
    (PropertyAccessExpression Sample.a_b false (PrivateIdentifierName "c")).

(** The pass of [Sample] over a parser that knows the trees with a private
    name. *)
Definition trees : list Node :=
  [Sample.private_guard; Sample.private_tail; private_rest].

Definition parse (text : string) : option Node :=
  find (fun tree => String.eqb (printNode tree) text) trees.

Definition pass (target : TypeScriptVersion) (text : string) : Outcome PassResult :=
  match parse text with
  | None => Return {| changes := []; needAnotherPass := false |}
  | Some tree =>
      tree' <- visitor printNode Sample.v3_7 target 16 tree ;;
      if String.eqb (printNode tree') text
      then Return {| changes := []; needAnotherPass := false |}
      else Return {| changes :=
                       [ {| fileName := "dummy.ts";
                            textChanges :=
                              [ {| spanStart := 0;
                                   spanLength := String.length text;
                                   newText := printNode tree' |} ] |} ];
                     needAnotherPass := true |}
  end.

End Sample2.

(* ================================================================== *)
(** ** General facts *)
(* ================================================================== *)

Lemma SyntaxKind_eqb_eq : forall a b, SyntaxKind.eqb a b = true <-> a = b.
Proof.
  intros a b; split.
  - destruct a, b; simpl; intro H; try discriminate; try reflexivity.
    apply String.eqb_eq in H; now subst.
  - intros <-; destruct a; simpl; auto using String.eqb_refl.
Qed.

Lemma SyntaxKind_eqb_refl : forall a, SyntaxKind.eqb a a = true.
Proof. intro a; now apply SyntaxKind_eqb_eq. Qed.

(** A tree that is not an [&&] expression ends the first loop of
    [getOptionalChains] at once. *)
Lemma collectChains_stop : forall x chains,
  isAmpersandAmpersandExpression x = false ->
  collectChains x chains = Some chains.
Proof.
  intros x chains H; destruct x; try reflexivity.
  destruct operatorToken; try reflexivity; discriminate.
Qed.

Lemma asChainableExpression_chainNode : forall e chain,
  asChainableExpression e = Some chain -> chainNode chain = e.
Proof.
  intros e chain H; destruct e; simpl in H; try discriminate;
    injection H as <-; reflexivity.
Qed.

(** Below [v3_7] the rule for ternaries is switched off. *)
Lemma upgradeConditionalExpression_gated :
  forall getText v3_7 target visit condition whenTrue whenFalse,
    (target <? v3_7)%Z = true ->
    upgradeConditionalExpression getText v3_7 target visit
      condition whenTrue whenFalse
    = visitEachChild visit (ConditionalExpression condition whenTrue whenFalse).
Proof.
  intros getText v3_7 target visit c t f H.
  unfold upgradeConditionalExpression.
  rewrite Z.geb_leb. apply Z.ltb_lt in H.
  destruct (Z.leb_spec v3_7 target); [lia | reflexivity].
Qed.

(** The private-name test of [getOptionalChains] does reject a private
    link that is not the first one: [a && a.b && a.b.#c] is no match. *)
Example getOptionalChains_private_tail :
  getOptionalChains printNode Sample.private_tail = None.
Proof. reflexivity. Qed.

(* ================================================================== *)
(** ** The optional-chain rule *)
(* ================================================================== *)

(** C1 (fails on the code).  The claim: a guard chain with a private-named
    link is never rewritten and comes back unchanged, without an
    exception.  On [a && a.#b] the matcher returns the one-link chain
    (its private-name test starts at the second link) and building the
    replacement throws in [cast]. *)
Theorem C1_private_first_link_throws :
  printNode Sample.private_guard = "a && a.#b"
  /\ (forall getText,
        getOptionalChains getText Sample.private_guard
        = Some [PropertyAccess Sample.a false (PrivateIdentifierName "b")])
  /\ (forall getText v3_7 target fuel,
        visitor getText v3_7 target (S fuel) Sample.private_guard
        = Throw "invalid cast: PrivateIdentifier").
Proof. repeat split. Qed.

(** C2 (fails on the code).  The claim: below [v3_7] neither rule fires.
    [upgradeBinaryExpression] does not look at the target: [a && a.b]
    becomes [a?.b] for a target below [v3_7] too. *)
Theorem C2_optional_chain_not_gated :
  forall getText v3_7 target fuel,
    (target <? v3_7)%Z = true ->
    visitor getText v3_7 target (S fuel) Sample.guard
    = Return (Sample.qdot Sample.a "b")
    /\ printNode Sample.guard = "a && a.b"
    /\ printNode (Sample.qdot Sample.a "b") = "a?.b".
Proof. intros; repeat split. Qed.

Lemma C2_optional_chain_not_gated_witness :
  (Sample.v3_6 <? Sample.v3_7)%Z = true
  /\ visitor printNode Sample.v3_7 Sample.v3_6 1 Sample.guard
     = Return (Sample.qdot Sample.a "b").
Proof.
  split; [reflexivity|].
  apply (C2_optional_chain_not_gated printNode Sample.v3_7 Sample.v3_6 0).
  reflexivity.
Defined.

(** C3.  For [x && e] with [x] not an [&&] expression and [e] a member,
    element or call access, the matcher returns the chain [[e]] whatever
    [x] is, and the visitor returns the optional form of [e] built on
    [e]'s own receiver: [x] is in neither.  That form is
    [receiver?.name] for a member access with an identifier name,
    [receiver?.[argument]] for an element access and
    [receiver?.(arguments)] for a call, the receiver and the argument with
    their children visited, the arguments of a call visited. *)
Theorem C3_single_link_discards_guard :
  forall getText v3_7 target fuel x e chain,
    isAmpersandAmpersandExpression x = false ->
    asChainableExpression e = Some chain ->
    getOptionalChains getText (BinaryExpression x AmpersandAmpersandToken e)
    = Some [chain]
    /\ visitor getText v3_7 target (S fuel)
         (BinaryExpression x AmpersandAmpersandToken e)
       = createOptionalChainByChainableExpression
           (visitor getText v3_7 target fuel) chain (chainExpression chain)
    /\ (forall receiver q name receiver',
          e = PropertyAccessExpression receiver q (IdentifierName name) ->
          visitEachChild (visitor getText v3_7 target fuel) receiver
          = Return receiver' ->
          visitor getText v3_7 target (S fuel)
            (BinaryExpression x AmpersandAmpersandToken e)
          = Return (PropertyAccessExpression receiver' true (IdentifierName name)))
    /\ (forall receiver q argument receiver' argument',
          e = ElementAccessExpression receiver q argument ->
          visitEachChild (visitor getText v3_7 target fuel) receiver
          = Return receiver' ->
          visitEachChild (visitor getText v3_7 target fuel) argument
          = Return argument' ->
          visitor getText v3_7 target (S fuel)
            (BinaryExpression x AmpersandAmpersandToken e)
          = Return (ElementAccessExpression receiver' true argument'))
    /\ (forall receiver q typeArguments arguments receiver' arguments',
          e = CallExpression receiver q typeArguments arguments ->
          visitEachChild (visitor getText v3_7 target fuel) receiver
          = Return receiver' ->
          visitNodes (visitor getText v3_7 target fuel) arguments
          = Return arguments' ->
          visitor getText v3_7 target (S fuel)
            (BinaryExpression x AmpersandAmpersandToken e)
          = Return (CallExpression receiver' true typeArguments arguments')).
Proof.
  intros getText v3_7 target fuel x e chain Hx He.
  assert (Hchains :
    getOptionalChains getText (BinaryExpression x AmpersandAmpersandToken e)
    = Some [chain]).
  { unfold getOptionalChains; simpl. rewrite He.
    rewrite (collectChains_stop x [chain] Hx). reflexivity. }
  assert (Hvisit :
    visitor getText v3_7 target (S fuel)
      (BinaryExpression x AmpersandAmpersandToken e)
    = createOptionalChainByChainableExpression
        (visitor getText v3_7 target fuel) chain (chainExpression chain)).
  { change (upgradeBinaryExpression getText (visitor getText v3_7 target fuel)
              (BinaryExpression x AmpersandAmpersandToken e)
            = createOptionalChainByChainableExpression
                (visitor getText v3_7 target fuel) chain (chainExpression chain)).
    unfold upgradeBinaryExpression. rewrite Hchains.
    unfold createOptionalChains.
    destruct (createOptionalChainByChainableExpression _ chain _); reflexivity. }
  split; [exact Hchains|]. split; [exact Hvisit|].
  split; [|split].
  - intros receiver q name receiver' -> Hrecv.
    rewrite Hvisit. simpl in He. injection He as <-.
    simpl. rewrite Hrecv. reflexivity.
  - intros receiver q argument receiver' argument' -> Hrecv Harg.
    rewrite Hvisit. simpl in He. injection He as <-.
    simpl. rewrite Hrecv; simpl. rewrite Harg. reflexivity.
  - intros receiver q typeArguments arguments receiver' arguments' ->
      Hrecv Hargs.
    rewrite Hvisit. simpl in He. injection He as <-.
    simpl. rewrite Hrecv; simpl. rewrite Hargs. reflexivity.
Qed.

Lemma C3_single_link_discards_guard_witness :
  printNode Sample.unrelated_guard = "x && a.b"
  /\ visitor printNode Sample.v3_7 Sample.v3_8 1 Sample.unrelated_guard
     = Return (Sample.qdot Sample.a "b")
  /\ visitor printNode Sample.v3_7 Sample.v3_8 2 Sample.unrelated_element_guard
     = Return (ElementAccessExpression Sample.a_b true (StringLiteral "c"))
  /\ visitor printNode Sample.v3_7 Sample.v3_8 3 Sample.unrelated_call_guard
     = Return (CallExpression Sample.a_b_c true None []).
Proof.
  split; [reflexivity|]. split; [|split].
  - refine (proj1 (proj2 (proj2 (C3_single_link_discards_guard
              printNode Sample.v3_7 Sample.v3_8 0 Sample.x Sample.a_b
              (PropertyAccess Sample.a false (IdentifierName "b")) _ _)))
            Sample.a false "b" Sample.a _ _); reflexivity.
  - refine (proj1 (proj2 (proj2 (proj2 (C3_single_link_discards_guard
              printNode Sample.v3_7 Sample.v3_8 1 Sample.x Sample.a_b_c
              (ElementAccess Sample.a_b false (StringLiteral "c")) _ _))))
            Sample.a_b false (StringLiteral "c") Sample.a_b (StringLiteral "c")
            _ _ _); reflexivity.
  - refine (proj2 (proj2 (proj2 (proj2 (C3_single_link_discards_guard
              printNode Sample.v3_7 Sample.v3_8 2 Sample.x Sample.a_b_c_call
              (Call Sample.a_b_c false None []) _ _))))
            Sample.a_b_c false None [] Sample.a_b_c [] _ _ _); reflexivity.
Defined.

(** C4.  [a && a.b && a.b["c"] && a.b["c"]()] is one match of three links,
    and one call of the visitor returns [a?.b?.["c"]?.()], at every
    target. *)
Theorem C4_long_chain_collapsed_at_once :
  printNode Sample.long_guard
  = "a && a.b && a.b[" ++ dquote ++ "c" ++ dquote ++ "] && a.b["
    ++ dquote ++ "c" ++ dquote ++ "]()"
  /\ getOptionalChains printNode Sample.long_guard
     = Some [PropertyAccess Sample.a false (IdentifierName "b");
             ElementAccess Sample.a_b false (StringLiteral "c");
             Call Sample.a_b_c false None []]
  /\ (forall v3_7 target fuel,
        visitor printNode v3_7 target (3 + fuel) Sample.long_guard
        = Return Sample.long_chain)
  /\ printNode Sample.long_chain
     = "a?.b?.[" ++ dquote ++ "c" ++ dquote ++ "]?.()".
Proof. repeat split. Qed.

(* ================================================================== *)
(** ** The comparator *)
(* ================================================================== *)

Lemma isEqualityExpression_refl : forall getText e,
  isEqualityExpression getText e e = true.
Proof.
  intros getText e; unfold isEqualityExpression.
  rewrite SyntaxKind_eqb_refl; simpl.
  destruct e; rewrite ?String.eqb_refl; reflexivity.
Qed.

Lemma isEqualityExpression_kind : forall getText l r,
  kind l <> kind r -> isEqualityExpression getText l r = false.
Proof.
  intros getText l r H; unfold isEqualityExpression.
  destruct (SyntaxKind.eqb (kind l) (kind r)) eqn:E; [|reflexivity].
  apply SyntaxKind_eqb_eq in E; contradiction.
Qed.

(** C6 as the specification words it fails: [a] and [(a)] have the same
    text once parentheses are stripped, and the comparator says they
    differ, for it compares kinds first and strips nothing. *)
Lemma C6_parenthesized_not_equal :
  spec_equal printNode Sample.a (ParenthesizedExpression Sample.a) = true
  /\ isEqualityExpression printNode Sample.a (ParenthesizedExpression Sample.a)
     = false.
Proof. split; reflexivity. Qed.

Lemma isEqualityExpression_true_iff :
  forall getText l r,
    isEqualityExpression getText l r = true
    <-> kind l = kind r
        /\ ((exists text, l = Identifier text /\ r = Identifier text)
            \/ trim (getText l) = trim (getText r)).
Proof.
  intros getText l r; unfold isEqualityExpression; split.
  - destruct (SyntaxKind.eqb (kind l) (kind r)) eqn:E; simpl; [|discriminate].
    apply SyntaxKind_eqb_eq in E. intro H; split; [exact E|].
    destruct l; try (right; now apply String.eqb_eq).
    destruct r; try (right; now apply String.eqb_eq).
    destruct (String.eqb text text0) eqn:T.
    + apply String.eqb_eq in T; subst. left; eauto.
    + right; now apply String.eqb_eq.
  - intros [E H]. apply SyntaxKind_eqb_eq in E; rewrite E; simpl.
    destruct H as [(text & -> & ->) | H].
    + now rewrite String.eqb_refl.
    + apply String.eqb_eq in H.
      destruct l; auto. destruct r; auto.
      destruct (String.eqb text text0); auto.
Qed.

(** C6, amended.  The comparator returns [true] exactly when the two nodes
    are of the same kind and either both are identifiers of the same name
    or their texts in the source file, trimmed of white space at both
    ends, are the same.  It strips no parentheses. *)
Theorem C6_isEqualityExpression_iff :
  forall getText l r,
    isEqualityExpression getText l r = true
    <-> kind l = kind r
        /\ ((exists text, l = Identifier text /\ r = Identifier text)
            \/ trim (getText l) = trim (getText r)).
Proof. exact isEqualityExpression_true_iff. Qed.

(* ================================================================== *)
(** ** The nullish-coalescing rule *)
(* ================================================================== *)

Lemma strict_null_classified : forall s op,
  isStrictEqualityOperator op = true ->
  isNullableEqualityExpression s op NullKeyword = Some (skipParens s).
Proof.
  intros s op H; unfold isNullableEqualityExpression.
  unfold isEqualityOrNotToNull, isStrictEqualityOrNotToNull, binaryCompare,
    doEqualityOrNotToNullCompare, doStrictEqualityOrNotToNullCompare.
  simpl; rewrite H.
  destruct op; try discriminate; reflexivity.
Qed.

Lemma strict_undefined_classified : forall s op u,
  isStrictEqualityOperator op = true ->
  isUndefinedOperand u ->
  kind (skipParens s) <> SyntaxKind.NullKeyword ->
  isNullableEqualityExpression s op u = Some (skipParens s).
Proof.
  intros s op u H Hu Hs; unfold isNullableEqualityExpression.
  unfold isEqualityOrNotToNull, isStrictEqualityOrNotToNull,
    isStrictEqualityOrNotToUndefined, binaryCompare,
    doEqualityOrNotToNullCompare, doStrictEqualityOrNotToNullCompare,
    doStrictEqualityOrNotToUndefinedCompare.
  rewrite H.
  assert (Hk : SyntaxKind.eqb (kind (skipParens s)) SyntaxKind.NullKeyword = false).
  { destruct (SyntaxKind.eqb _ _) eqn:E; [|reflexivity].
    apply SyntaxKind_eqb_eq in E; contradiction. }
  rewrite Hk.
  destruct Hu as [-> | ->]; destruct op; try discriminate; reflexivity.
Qed.

Lemma skipParens_idempotent : forall e, skipParens (skipParens e) = skipParens e.
Proof. induction e; auto. Qed.

(** The rule for ternaries fires when the guarded branch compares equal
    to the subject of the condition. *)
Lemma upgradeConditionalExpression_fires :
  forall getText v3_7 target visit condition whenTrue whenFalse
         branch guarded subject,
    (target >=? v3_7)%Z = true ->
    getNullableConditionTarget getText condition = subject ->
    getNullishTargetBranch condition whenTrue whenFalse = Some (branch, guarded) ->
    isEqualityExpression getText (skipParens guarded) (skipParens subject) = true ->
    upgradeConditionalExpression getText v3_7 target visit
      condition whenTrue whenFalse
    = (left' <- visitEachChild visit subject ;;
       right' <- visitEachChild visit
                   (match branch with
                    | WhenTrue => whenFalse
                    | WhenFalse => whenTrue
                    end) ;;
       Return (createNullishCoalesce left' right')).
Proof.
  intros getText v3_7 target visit c t f branch guarded subject
    Ht Hs Hb He.
  unfold upgradeConditionalExpression. rewrite Ht, Hs.
  unfold getNullishCondBranch. rewrite Hb, He. reflexivity.
Qed.

(** The compound classifier on [(s1 op1 null) outer (s2 op2 undefined)],
    [op1] and [op2] strict: when the two subjects compare equal, the
    first is the answer. *)
Lemma compound_guard_target : forall getText s1 s2 u op1 op2 outer,
  isStrictEqualityOperator op1 = true ->
  isStrictEqualityOperator op2 = true ->
  isUndefinedOperand u ->
  kind (skipParens s2) <> SyntaxKind.NullKeyword ->
  isEqualityExpression getText (skipParens s1) (skipParens s2) = true ->
  outer = BarBarToken \/ outer = AmpersandAmpersandToken ->
  getNullableConditionTarget getText
    (BinaryExpression (BinaryExpression s1 op1 NullKeyword) outer
       (BinaryExpression s2 op2 u))
  = skipParens s1.
Proof.
  intros getText s1 s2 u op1 op2 outer H1 H2 Hu Hs Heq Houter.
  unfold getNullableConditionTarget. cbn [skipParens].
  assert (Hnone : isNullableEqualityExpression
            (BinaryExpression s1 op1 NullKeyword) outer
            (BinaryExpression s2 op2 u) = None)
    by (destruct Houter as [-> | ->]; reflexivity).
  rewrite Hnone. unfold isBinaryNullableEqualityOrNotExpression.
  rewrite (strict_null_classified s1 op1 H1).
  rewrite (strict_undefined_classified s2 op2 u H2 Hu Hs).
  rewrite Heq.
  destruct Houter as [-> | ->]; reflexivity.
Qed.

(** C5.  Let [s1], [s2] and [s3] be the three occurrences of the subject:
    in the comparison with [null], in the comparison with [undefined] and
    in the guarded branch.  When the comparator finds [s1] equal to [s2]
    and [s3] equal to [s1] (parentheses stripped; identifiers of one name
    always are), both [s1 === null || s2 === undefined ? b : s3] and
    [s1 !== null && s2 !== undefined ? s3 : b] become [s1 ?? b] (subject
    and fallback with their children visited) at a target of [v3_7] or
    later; the guarded branch is [whenFalse] under [||] and [whenTrue]
    under [&&]. *)
Theorem C5_compound_guard_becomes_coalesce :
  forall getText v3_7 target fuel s1 s2 s3 b u,
    (target >=? v3_7)%Z = true ->
    isUndefinedOperand u ->
    kind (skipParens s2) <> SyntaxKind.NullKeyword ->
    isEqualityExpression getText (skipParens s1) (skipParens s2) = true ->
    isEqualityExpression getText (skipParens s3) (skipParens s1) = true ->
    let visit := visitor getText v3_7 target fuel in
    let coalesce :=
      left' <- visitEachChild visit (skipParens s1) ;;
      right' <- visitEachChild visit b ;;
      Return (createNullishCoalesce left' right') in
    visitor getText v3_7 target (S fuel)
      (ConditionalExpression
         (BinaryExpression
            (BinaryExpression s1 EqualsEqualsEqualsToken NullKeyword)
            BarBarToken
            (BinaryExpression s2 EqualsEqualsEqualsToken u))
         b s3)
    = coalesce
    /\ visitor getText v3_7 target (S fuel)
         (ConditionalExpression
            (BinaryExpression
               (BinaryExpression s1 ExclamationEqualsEqualsToken NullKeyword)
               AmpersandAmpersandToken
               (BinaryExpression s2 ExclamationEqualsEqualsToken u))
            s3 b)
       = coalesce
    /\ (forall l r t f,
          getNullishTargetBranch (BinaryExpression l BarBarToken r) t f
          = Some (WhenFalse, f))
    /\ (forall l r t f,
          getNullishTargetBranch (BinaryExpression l AmpersandAmpersandToken r) t f
          = Some (WhenTrue, t)).
Proof.
  intros getText v3_7 target fuel s1 s2 s3 b u Ht Hu Hs H12 H31 visit coalesce.
  split; [|split; [|split; reflexivity]].
  - change (upgradeConditionalExpression getText v3_7 target visit
              (BinaryExpression
                 (BinaryExpression s1 EqualsEqualsEqualsToken NullKeyword)
                 BarBarToken
                 (BinaryExpression s2 EqualsEqualsEqualsToken u)) b s3
            = coalesce).
    apply (upgradeConditionalExpression_fires getText v3_7 target visit
             _ b s3 WhenFalse s3 (skipParens s1)); auto.
    + apply compound_guard_target; auto.
    + now rewrite skipParens_idempotent.
  - change (upgradeConditionalExpression getText v3_7 target visit
              (BinaryExpression
                 (BinaryExpression s1 ExclamationEqualsEqualsToken NullKeyword)
                 AmpersandAmpersandToken
                 (BinaryExpression s2 ExclamationEqualsEqualsToken u)) s3 b
            = coalesce).
    apply (upgradeConditionalExpression_fires getText v3_7 target visit
             _ s3 b WhenTrue s3 (skipParens s1)); auto.
    + apply compound_guard_target; auto.
    + now rewrite skipParens_idempotent.
Qed.

Lemma C5_compound_guard_becomes_coalesce_witness :
  printNode Sample.ternary_or = "a === null || a === undefined ? b : a"
  /\ printNode Sample.ternary_and = "a !== null && a !== undefined ? a : b"
  /\ printNode Sample.coalesce = "a ?? b"
  /\ visitor printNode Sample.v3_7 Sample.v3_8 1 Sample.ternary_or
     = Return Sample.coalesce
  /\ visitor printNode Sample.v3_7 Sample.v3_8 1 Sample.ternary_and
     = Return Sample.coalesce.
Proof.
  do 3 (split; [reflexivity|]).
  split.
  - refine (proj1 (C5_compound_guard_becomes_coalesce printNode
                     Sample.v3_7 Sample.v3_8 0 Sample.a Sample.a Sample.a
                     Sample.b Sample.undefined _ _ _ _ _)).
    + reflexivity.
    + right; reflexivity.
    + discriminate.
    + reflexivity.
    + reflexivity.
  - refine (proj1 (proj2 (C5_compound_guard_becomes_coalesce printNode
                     Sample.v3_7 Sample.v3_8 0 Sample.a Sample.a Sample.a
                     Sample.b Sample.undefined _ _ _ _ _))).
    + reflexivity.
    + right; reflexivity.
    + discriminate.
    + reflexivity.
    + reflexivity.
Defined.

(** For identifiers of one name the comparator needs no text: the two
    ternaries of C5 on an identifier become [a ?? b] whatever the text of
    the file. *)
Lemma compound_guard_on_identifier :
  forall getText v3_7 target fuel a b u,
    (target >=? v3_7)%Z = true ->
    isUndefinedOperand u ->
    visitor getText v3_7 target (S fuel)
      (ConditionalExpression
         (BinaryExpression
            (BinaryExpression (Identifier a) EqualsEqualsEqualsToken NullKeyword)
            BarBarToken
            (BinaryExpression (Identifier a) EqualsEqualsEqualsToken u))
         (Identifier b) (Identifier a))
    = Return (createNullishCoalesce (Identifier a) (Identifier b))
    /\ visitor getText v3_7 target (S fuel)
         (ConditionalExpression
            (BinaryExpression
               (BinaryExpression (Identifier a) ExclamationEqualsEqualsToken
                  NullKeyword)
               AmpersandAmpersandToken
               (BinaryExpression (Identifier a) ExclamationEqualsEqualsToken u))
            (Identifier a) (Identifier b))
       = Return (createNullishCoalesce (Identifier a) (Identifier b)).
Proof.
  intros getText v3_7 target fuel a b u Ht Hu.
  assert (Hid : isEqualityExpression getText (Identifier a) (Identifier a) = true).
  { unfold isEqualityExpression; simpl. now rewrite String.eqb_refl. }
  split.
  - change (upgradeConditionalExpression getText v3_7 target
              (visitor getText v3_7 target fuel)
              (BinaryExpression
                 (BinaryExpression (Identifier a) EqualsEqualsEqualsToken
                    NullKeyword)
                 BarBarToken
                 (BinaryExpression (Identifier a) EqualsEqualsEqualsToken u))
              (Identifier b) (Identifier a)
            = Return (createNullishCoalesce (Identifier a) (Identifier b))).
    rewrite (upgradeConditionalExpression_fires getText v3_7 target _
               _ (Identifier b) (Identifier a) WhenFalse (Identifier a)
               (Identifier a)); auto.
    apply (compound_guard_target getText (Identifier a) (Identifier a));
      auto; discriminate.
  - change (upgradeConditionalExpression getText v3_7 target
              (visitor getText v3_7 target fuel)
              (BinaryExpression
                 (BinaryExpression (Identifier a) ExclamationEqualsEqualsToken
                    NullKeyword)
                 AmpersandAmpersandToken
                 (BinaryExpression (Identifier a) ExclamationEqualsEqualsToken u))
              (Identifier a) (Identifier b)
            = Return (createNullishCoalesce (Identifier a) (Identifier b))).
    rewrite (upgradeConditionalExpression_fires getText v3_7 target _
               _ (Identifier a) (Identifier b) WhenTrue (Identifier a)
               (Identifier a)); auto.
    apply (compound_guard_target getText (Identifier a) (Identifier a));
      auto; discriminate.
Qed.

Lemma skipParens_not_parenthesized : forall e,
  isParenthesizedExpression (skipParens e) = false.
Proof. induction e; auto. Qed.

(** A loose comparison with [undefined] is classified by none of the four
    single forms, unless its other operand is the [null] literal. *)
Lemma loose_undefined_unclassified : forall s op u,
  isEqualityOperator op = true ->
  isUndefinedOperand u ->
  kind (skipParens s) <> SyntaxKind.NullKeyword ->
  isNullableEqualityExpression s op u = None.
Proof.
  intros s op u Hop Hu Hs; unfold isNullableEqualityExpression.
  unfold isEqualityOrNotToNull, isStrictEqualityOrNotToNull,
    isStrictEqualityOrNotToUndefined, isStrictEqualityOrNotToVoidExpression,
    binaryCompare, doEqualityOrNotToNullCompare,
    doStrictEqualityOrNotToNullCompare,
    doStrictEqualityOrNotToUndefinedCompare,
    doStrictEqualityOrNotToVoidExpressionCompare.
  assert (Hk : SyntaxKind.eqb (kind (skipParens s)) SyntaxKind.NullKeyword = false).
  { destruct (SyntaxKind.eqb _ _) eqn:E; [|reflexivity].
    apply SyntaxKind_eqb_eq in E; contradiction. }
  rewrite Hk.
  destruct Hu as [-> | ->]; destruct op; try discriminate; reflexivity.
Qed.

(** C9.  [doEqualityOrNotToNullCompare] answers only for [==] and [!=]
    with the [null] literal on the other side, and
    [doStrictEqualityOrNotToUndefinedCompare] only for [===] and [!==] with
    [undefined] there; [a == undefined] is classified by no single form;
    and the visitor does not rewrite [a == undefined ? b : a]: it returns
    the ternary with its children visited.  The text of a subject is
    never that of the whole comparison it stands in. *)
Theorem C9_loose_undefined_is_no_guard :
  forall getText v3_7 target fuel s b u,
    isUndefinedOperand u ->
    trim (getText (skipParens s))
    <> trim (getText (BinaryExpression s EqualsEqualsToken u)) ->
    (forall l op r subject,
       doEqualityOrNotToNullCompare l op r = Some subject
       <-> (op = EqualsEqualsToken \/ op = ExclamationEqualsToken)
           /\ kind r = SyntaxKind.NullKeyword /\ subject = l)
    /\ (forall l op r subject,
          doStrictEqualityOrNotToUndefinedCompare l op r = Some subject
          <-> (op = EqualsEqualsEqualsToken \/ op = ExclamationEqualsEqualsToken)
              /\ (kind r = SyntaxKind.UndefinedKeyword
                  \/ r = Identifier "undefined")
              /\ subject = l)
    /\ (kind (skipParens s) <> SyntaxKind.NullKeyword ->
        isNullableEqualityExpression s EqualsEqualsToken u = None)
    /\ getNullishCondBranch getText (BinaryExpression s EqualsEqualsToken u) b s
         (getNullableConditionTarget getText
            (BinaryExpression s EqualsEqualsToken u))
       = None
    /\ visitor getText v3_7 target (S fuel)
         (ConditionalExpression (BinaryExpression s EqualsEqualsToken u) b s)
       = visitEachChild (visitor getText v3_7 target fuel)
           (ConditionalExpression (BinaryExpression s EqualsEqualsToken u) b s).
Proof.
  intros getText v3_7 target fuel s b u Hu Htext.
  assert (Hbranch :
    getNullishCondBranch getText (BinaryExpression s EqualsEqualsToken u) b s
      (getNullableConditionTarget getText
         (BinaryExpression s EqualsEqualsToken u)) = None).
  { unfold getNullishCondBranch; cbn [getNullishTargetBranch].
    unfold getNullableConditionTarget; cbn [skipParens].
    destruct (SyntaxKind.eqb (kind (skipParens s)) SyntaxKind.NullKeyword) eqn:Hk.
    - (* the subject is [null]: the classifier answers [undefined] *)
      apply SyntaxKind_eqb_eq in Hk.
      assert (Hcls : isNullableEqualityExpression s EqualsEqualsToken u = Some u).
      { unfold isNullableEqualityExpression, isEqualityOrNotToNull,
          binaryCompare, doEqualityOrNotToNullCompare.
        rewrite Hk.
        destruct Hu as [-> | ->]; reflexivity. }
      rewrite Hcls.
      rewrite isEqualityExpression_kind; [reflexivity|].
      rewrite Hk. destruct Hu as [-> | ->]; discriminate.
    - (* otherwise the whole condition is the subject *)
      assert (Hs : kind (skipParens s) <> SyntaxKind.NullKeyword).
      { intro E; apply SyntaxKind_eqb_eq in E; congruence. }
      rewrite (loose_undefined_unclassified s EqualsEqualsToken u eq_refl Hu Hs).
      cbn [isBinaryNullableEqualityOrNotExpression skipParens].
      destruct (isEqualityExpression getText (skipParens s)
                  (BinaryExpression s EqualsEqualsToken u)) eqn:E;
        [|reflexivity].
      apply isEqualityExpression_true_iff in E.
      destruct E as [_ [(text & _ & E) | E]]; [discriminate | contradiction]. }
  split; [|split; [|split; [|split]]].
  - intros l op r subject; unfold doEqualityOrNotToNullCompare; split.
    + destruct op; simpl; try discriminate;
        (destruct (SyntaxKind.eqb (kind r) SyntaxKind.NullKeyword) eqn:E;
         [|discriminate]);
        apply SyntaxKind_eqb_eq in E; intro H; injection H as <-; auto.
    + intros [Hop [Hr ->]]. rewrite Hr.
      destruct Hop as [-> | ->]; reflexivity.
  - intros l op r subject; unfold doStrictEqualityOrNotToUndefinedCompare; split.
    + destruct (isStrictEqualityOperator op) eqn:Hop; simpl; [|discriminate].
      destruct (SyntaxKind.eqb (kind r) SyntaxKind.UndefinedKeyword) eqn:E; simpl.
      * apply SyntaxKind_eqb_eq in E; intro H; injection H as <-.
        destruct op; try discriminate; auto.
      * destruct r; try discriminate.
        destruct (String.eqb text "undefined") eqn:T; [|discriminate].
        apply String.eqb_eq in T; subst text.
        intro H; injection H as <-.
        destruct op; try discriminate; auto.
    + intros [Hop [Hr ->]].
      destruct Hop as [-> | ->]; destruct Hr as [Hr | ->];
        try rewrite Hr; reflexivity.
  - intro Hs. exact (loose_undefined_unclassified s EqualsEqualsToken u eq_refl Hu Hs).
  - exact Hbranch.
  - change (upgradeConditionalExpression getText v3_7 target
              (visitor getText v3_7 target fuel)
              (BinaryExpression s EqualsEqualsToken u) b s
            = visitEachChild (visitor getText v3_7 target fuel)
                (ConditionalExpression (BinaryExpression s EqualsEqualsToken u) b s)).
    unfold upgradeConditionalExpression. rewrite Hbranch.
    destruct (target >=? v3_7)%Z; reflexivity.
Qed.

Lemma C9_loose_undefined_is_no_guard_witness :
  printNode Sample.ternary_loose = "a == undefined ? b : a"
  /\ visitor printNode Sample.v3_7 Sample.v3_8 3 Sample.ternary_loose
     = Return Sample.ternary_loose.
Proof.
  split; [reflexivity|].
  refine (eq_trans
            (proj2 (proj2 (proj2 (proj2
               (C9_loose_undefined_is_no_guard printNode
                  Sample.v3_7 Sample.v3_8 2 Sample.a Sample.b Sample.undefined
                  _ _))))) _).
  - right; reflexivity.
  - discriminate.
  - reflexivity.
Defined.

(** C10 as it is worded fails: [a && b ? a && b : c] does become a [??]
    expression, but its left operand is the condition as it stands, not
    the condition in parentheses: the result is [a && b ?? c], not
    [(a && b) ?? c]. *)
Lemma C10_condition_not_parenthesized :
  printNode Sample.ternary_self = "a && b ? a && b : c"
  /\ visitor printNode Sample.v3_7 Sample.v3_8 2 Sample.ternary_self
     = Return Sample.coalesce_self
  /\ printNode Sample.coalesce_self = "a && b ?? c"
  /\ printNode Sample.coalesce_self_parenthesized = "(a && b) ?? c"
  /\ Sample.coalesce_self <> Sample.coalesce_self_parenthesized.
Proof. repeat split. discriminate. Qed.

(** C10, amended.  When neither the single forms nor the compound form
    classify the binary condition of a ternary, the condition itself is
    the subject; when the guarded branch, parentheses stripped, compares
    equal to the condition, the ternary becomes [condition ?? other
    branch], both with their children visited and the condition without
    parentheses of its own: [a && b ? a && b : c] becomes
    [a && b ?? c]. *)
Theorem C10_unrecognised_condition_is_subject :
  forall getText v3_7 target fuel l op r whenTrue whenFalse branch guarded,
    (target >=? v3_7)%Z = true ->
    isNullableEqualityExpression l op r = None ->
    isBinaryNullableEqualityOrNotExpression getText l op r = None ->
    getNullishTargetBranch (BinaryExpression l op r) whenTrue whenFalse
    = Some (branch, guarded) ->
    isEqualityExpression getText (skipParens guarded) (BinaryExpression l op r)
    = true ->
    getNullableConditionTarget getText (BinaryExpression l op r)
    = BinaryExpression l op r
    /\ visitor getText v3_7 target (S fuel)
         (ConditionalExpression (BinaryExpression l op r) whenTrue whenFalse)
       = (left' <- visitEachChild (visitor getText v3_7 target fuel)
                     (BinaryExpression l op r) ;;
          right' <- visitEachChild (visitor getText v3_7 target fuel)
                      (match branch with
                       | WhenTrue => whenFalse
                       | WhenFalse => whenTrue
                       end) ;;
          Return (createNullishCoalesce left' right')).
Proof.
  intros getText v3_7 target fuel l op r whenTrue whenFalse branch guarded
    Ht Hsingle Hcompound Hbranch Hequal.
  assert (Htarget : getNullableConditionTarget getText (BinaryExpression l op r)
                    = BinaryExpression l op r).
  { unfold getNullableConditionTarget; cbn [skipParens].
    rewrite Hsingle, Hcompound; reflexivity. }
  split; [exact Htarget|].
  match goal with
  | |- _ = ?rhs =>
      change (upgradeConditionalExpression getText v3_7 target
                (visitor getText v3_7 target fuel)
                (BinaryExpression l op r) whenTrue whenFalse = rhs)
  end.
  unfold upgradeConditionalExpression. rewrite Ht, Htarget.
  unfold getNullishCondBranch. rewrite Hbranch.
  cbn [skipParens]. rewrite Hequal. reflexivity.
Qed.

Lemma C10_unrecognised_condition_is_subject_witness :
  printNode Sample.ternary_self = "a && b ? a && b : c"
  /\ printNode Sample.coalesce_self = "a && b ?? c"
  /\ visitor printNode Sample.v3_7 Sample.v3_8 2 Sample.ternary_self
     = Return Sample.coalesce_self.
Proof.
  do 2 (split; [reflexivity|]).
  refine (eq_trans
            (proj2 (C10_unrecognised_condition_is_subject printNode
                      Sample.v3_7 Sample.v3_8 1 Sample.a
                      AmpersandAmpersandToken Sample.b
                      (Sample.and Sample.a Sample.b) Sample.c
                      WhenTrue (Sample.and Sample.a Sample.b) _ _ _ _ _)) _);
    reflexivity.
Defined.

(* ================================================================== *)
(** ** The pass loop *)
(* ================================================================== *)

Section UpgradeFacts.

Variable applyChanges : string -> list TextChange -> string.
Variable pass : TypeScriptVersion -> string -> Outcome PassResult.

(** The counter [i] is printed and nothing else. *)
Lemma passes_counter : forall target fuel document i j,
  passes applyChanges pass target fuel document i
  = passes applyChanges pass target fuel document j.
Proof.
  intros target fuel; induction fuel as [|fuel IH]; intros document i j;
    [reflexivity|].
  simpl. destruct (pass target document) as [result| |]; simpl; auto.
  destruct (needAnotherPass result); auto.
Qed.

(** The loop returns only the document left by a pass that asked for no
    other pass. *)
Lemma passes_return_last : forall target fuel document i text,
  passes applyChanges pass target fuel document i = Return text ->
  exists last result,
    pass target last = Return result
    /\ needAnotherPass result = false
    /\ text = applyAll applyChanges last (changes result).
Proof.
  intros target fuel; induction fuel as [|fuel IH]; intros document i text H;
    [discriminate|].
  simpl in H. destruct (pass target document) as [result| |] eqn:P;
    simpl in H; try discriminate.
  destruct (needAnotherPass result) eqn:F.
  - eapply IH; eauto.
  - injection H as <-. eauto.
Qed.

(** The loop has no failure of its own: an exception it ends with was
    thrown by a pass. *)
Lemma passes_throw_from_pass : forall target fuel document i msg,
  passes applyChanges pass target fuel document i = Throw msg ->
  exists text, pass target text = Throw msg.
Proof.
  intros target fuel; induction fuel as [|fuel IH]; intros document i msg H;
    [discriminate|].
  simpl in H. destruct (pass target document) as [result| |] eqn:P;
    simpl in H; try discriminate.
  - destruct (needAnotherPass result); [eauto | discriminate].
  - injection H as <-. eauto.
Qed.

Lemma quiesces_passes : forall target document n text,
  quiesces applyChanges pass target document n text ->
  forall fuel i, n <= fuel ->
    passes applyChanges pass target fuel document i = Return text.
Proof.
  intros target document n text Q; induction Q as
    [document result P F | document result n text P F Q IH];
    intros fuel i Hfuel.
  - destruct fuel as [|fuel]; [lia|].
    simpl. rewrite P; simpl. now rewrite F.
  - destruct fuel as [|fuel]; [lia|].
    simpl. rewrite P; simpl. rewrite F. apply IH; lia.
Qed.

End UpgradeFacts.

Lemma restless_never_returns : forall fuel document i,
  passes Sample.applyChanges Sample.restless 0%Z fuel document i = OutOfFuel.
Proof.
  induction fuel as [|fuel IH]; intros document i; [reflexivity|].
  simpl. apply IH.
Qed.

Lemma sample_pass_quiet : forall target document result,
  Sample.pass target document = Return result ->
  needAnotherPass result = false ->
  changes result = [].
Proof.
  intros target document result H F. unfold Sample.pass in H.
  destruct (Sample.parse document) as [tree|].
  - destruct (visitor printNode Sample.v3_7 target 16 tree) as [tree'| |];
      simpl in H; try discriminate.
    destruct (String.eqb (printNode tree') document);
      injection H as <-; [reflexivity | discriminate].
  - injection H as <-; reflexivity.
Qed.

(** C7.  When a pass that reports that no other pass is needed has
    recorded no change, a run of [upgrade] on the text a first run
    returned, with the same target, returns that text after one pass. *)
Theorem C7_upgrade_idempotent :
  forall applyChanges pass,
    (forall target document result,
       pass target document = Return result ->
       needAnotherPass result = false ->
       changes result = []) ->
    forall fuel code target text,
      upgrade applyChanges pass fuel code target = Return text ->
      forall fuel',
        upgrade applyChanges pass (S fuel') text target = Return text.
Proof.
  intros applyChanges pass Hquiet fuel code target text H fuel'.
  unfold upgrade in *.
  apply passes_return_last in H.
  destruct H as (last & result & P & F & ->).
  rewrite (Hquiet target last result P F) in *.
  simpl. rewrite P; simpl. rewrite F.
  rewrite (Hquiet target last result P F). reflexivity.
Qed.

Lemma C7_upgrade_idempotent_witness :
  upgrade Sample.applyChanges Sample.pass 5 "a && a.b && a.b.c" Sample.v3_8
  = Return "a?.b?.c"
  /\ upgrade Sample.applyChanges Sample.pass 1 "a?.b?.c" Sample.v3_8
     = Return "a?.b?.c".
Proof.
  split; [reflexivity|].
  apply (C7_upgrade_idempotent Sample.applyChanges Sample.pass
           sample_pass_quiet 5 "a && a.b && a.b.c" Sample.v3_8 "a?.b?.c").
  reflexivity.
Defined.

Lemma restless_keeps_looping : forall target fuel document i,
  passes Sample.applyChanges Sample.restless target fuel document i = OutOfFuel.
Proof.
  intros target fuel; induction fuel as [|fuel IH]; intros document i;
    [reflexivity|].
  simpl. apply IH.
Qed.

(** C8 as the specification words it fails: no number of passes is a cap.
    With a pass that returns on every document and asks for another pass
    each time, the loop neither comes to rest nor fails: it is still
    running after any number of passes. *)
Lemma C8_no_pass_cap :
  (forall fuel,
     upgrade Sample.applyChanges Sample.restless fuel "a" Sample.v3_8
     = OutOfFuel)
  /\ ~ (exists cap, spec_passCap cap).
Proof.
  split.
  - intro fuel. apply restless_keeps_looping.
  - intros [cap H].
    destruct (H Sample.applyChanges
                (fun _ _ => {| changes := []; needAnotherPass := true |})
                "a" Sample.v3_8) as [(n & text & _ & Q) | (fuel & msg & T)].
    + pose proof (quiesces_passes _ _ _ _ _ _ Q n 0 (le_n n)) as R.
      change (passes Sample.applyChanges Sample.restless Sample.v3_8 n "a" 0
              = Return text) in R.
      rewrite restless_keeps_looping in R. discriminate.
    + change (passes Sample.applyChanges Sample.restless Sample.v3_8 fuel "a" 0
              = Throw msg) in T.
      rewrite restless_keeps_looping in T. discriminate.
Qed.

(** C8, amended.  The loop has no cap on the number of passes and no
    failure of its own, and its counter is only printed: when the passes
    ask for another pass [n - 1] times and the [n]-th does not, [upgrade]
    runs the [n] passes, whatever [n] is, and returns the document the
    last one leaves; an exception [upgrade] ends with was thrown by a
    pass; and the outcome of the loop does not depend on the counter. *)
Theorem C8_upgrade_runs_until_quiescent :
  forall applyChanges pass target,
    (forall code n text,
       quiesces applyChanges pass target code n text ->
       forall fuel, n <= fuel ->
         upgrade applyChanges pass fuel code target = Return text)
    /\ (forall fuel code msg,
          upgrade applyChanges pass fuel code target = Throw msg ->
          exists document, pass target document = Throw msg)
    /\ (forall fuel document i j,
          passes applyChanges pass target fuel document i
          = passes applyChanges pass target fuel document j).
Proof.
  intros applyChanges pass target. split; [|split].
  - intros code n text Q fuel Hfuel. unfold upgrade.
    now apply (quiesces_passes applyChanges pass target code n).
  - intros fuel code msg H. unfold upgrade in H.
    now apply passes_throw_from_pass in H.
  - intros fuel document i j. apply passes_counter.
Qed.

Lemma C8_upgrade_runs_until_quiescent_witness :
  upgrade Sample.applyChanges Sample.pass 2 "a && a.b && a.b.c" Sample.v3_8
  = Return "a?.b?.c".
Proof.
  apply (proj1 (C8_upgrade_runs_until_quiescent Sample.applyChanges Sample.pass
                  Sample.v3_8) "a && a.b && a.b.c" 2 "a?.b?.c"); [|lia].
  exact (quiesces_again Sample.applyChanges Sample.pass Sample.v3_8
           "a && a.b && a.b.c"
           {| changes :=
                [ {| fileName := "dummy.ts";
                     textChanges :=
                       [ {| spanStart := 0; spanLength := 17;
                            newText := "a?.b?.c" |} ] |} ];
              needAnotherPass := true |}
           1 "a?.b?.c" eq_refl eq_refl
           (quiesces_done Sample.applyChanges Sample.pass Sample.v3_8
              "a?.b?.c" {| changes := []; needAnotherPass := false |}
              eq_refl eq_refl)).
Defined.

(* ================================================================== *)
(** ** Further facts: utils.ts *)
(* ================================================================== *)

(** X1.  [skipParens] strips exactly the enclosing parentheses: its
    argument is its result under some number of pairs of parentheses, the
    result is not parenthesized, and stripping again changes nothing. *)
Theorem X1_skipParens_strips_all : forall e,
  (exists n, e = Nat.iter n ParenthesizedExpression (skipParens e))
  /\ isParenthesizedExpression (skipParens e) = false
  /\ skipParens (skipParens e) = skipParens e
  /\ (skipParens e = e <-> isParenthesizedExpression e = false).
Proof.
  intro e; split; [|split; [|split; [|split]]].
  - induction e; try (exists 0; reflexivity).
    destruct IHe as [n Hn]. exists (S n).
    change (ParenthesizedExpression e
            = ParenthesizedExpression
                (Nat.iter n ParenthesizedExpression (skipParens e))).
    now f_equal.
  - apply skipParens_not_parenthesized.
  - apply skipParens_idempotent.
  - intro H. rewrite <- H. apply skipParens_not_parenthesized.
  - intro H. destruct e; try reflexivity; discriminate.
Qed.

(** X2.  [lastOrUndefined] returns the last element of an array that has
    one, and [undefined] exactly for [undefined], for an empty array and
    for an array whose last element is [undefined]. *)
Theorem X2_lastOrUndefined_last : forall (T : Type) (undefined : T),
  (forall (l : list T) (x : T),
     lastOrUndefined T undefined (Some (l ++ [x])%list) = x)
  /\ (forall list : option (list T),
        lastOrUndefined T undefined list = undefined
        <-> list = None \/ list = Some []
            \/ exists l, list = Some (l ++ [undefined])%list).
Proof.
  intros T undefined.
  assert (Hlast : forall (l : list T) (x : T),
            lastOrUndefined T undefined (Some (l ++ [x])%list) = x).
  { intros l x; unfold lastOrUndefined.
    rewrite length_app; simpl.
    replace (length l + 1 - 1) with (length l) by lia.
    replace (Nat.eqb (length l + 1) 0) with false
      by (symmetry; apply Nat.eqb_neq; lia).
    simpl. rewrite app_nth2 by lia.
    now rewrite Nat.sub_diag. }
  split; [exact Hlast|].
  intros [l|]; split; auto.
  - destruct l as [|a l] using rev_ind; auto.
    rewrite Hlast. intros ->. right; right; eauto.
  - intros [H | [H | (l' & H)]]; try discriminate.
    + injection H as ->; reflexivity.
    + injection H as ->. apply Hlast.
Qed.

(* ================================================================== *)
(** ** Further facts: the comparator *)
(* ================================================================== *)

Lemma isEqualityExpression_sym_true : forall getText l r,
  isEqualityExpression getText l r = true ->
  isEqualityExpression getText r l = true.
Proof.
  intros getText l r H.
  apply isEqualityExpression_true_iff in H.
  apply isEqualityExpression_true_iff.
  destruct H as [K [(text & -> & ->) | T]]; split; eauto.
Qed.

(** X4.  [isEqualityExpression] is an equivalence on nodes: reflexive,
    symmetric and transitive. *)
Theorem X4_isEqualityExpression_equivalence : forall getText,
  (forall e, isEqualityExpression getText e e = true)
  /\ (forall l r,
        isEqualityExpression getText l r = isEqualityExpression getText r l)
  /\ (forall a b c,
        isEqualityExpression getText a b = true ->
        isEqualityExpression getText b c = true ->
        isEqualityExpression getText a c = true).
Proof.
  intro getText; repeat split.
  - apply isEqualityExpression_refl.
  - intros l r.
    destruct (isEqualityExpression getText l r) eqn:A;
      destruct (isEqualityExpression getText r l) eqn:B; auto.
    + apply isEqualityExpression_sym_true in A; congruence.
    + apply isEqualityExpression_sym_true in B; congruence.
  - intros a b c A B.
    apply isEqualityExpression_true_iff in A.
    apply isEqualityExpression_true_iff in B.
    apply isEqualityExpression_true_iff.
    destruct A as [KA A], B as [KB B]; split; [congruence|].
    destruct A as [(t & -> & ->) | TA]; [exact B|].
    destruct B as [(t & -> & ->) | TB]; [right; exact TA|].
    right; congruence.
Qed.

Lemma X4_isEqualityExpression_equivalence_witness :
  isEqualityExpression printNode Sample.a_b
    (PropertyAccessExpression Sample.a false (IdentifierName "b")) = true
  /\ isEqualityExpression printNode Sample.a_b Sample.a_b_c
     = isEqualityExpression printNode Sample.a_b_c Sample.a_b.
Proof.
  split.
  - apply (proj2 (proj2 (X4_isEqualityExpression_equivalence printNode))
             Sample.a_b Sample.a_b
             (PropertyAccessExpression Sample.a false (IdentifierName "b")));
      reflexivity.
  - apply (proj1 (proj2 (X4_isEqualityExpression_equivalence printNode))).
Defined.

(* ================================================================== *)
(** ** Further facts: the matcher of guard chains *)
(* ================================================================== *)

Lemma rev_case : forall (T : Type) (l : list T),
  l = [] \/ exists init x, l = (init ++ [x])%list.
Proof.
  intros T l; destruct l as [|x l] using rev_ind; eauto.
Qed.

Lemma guardChain_snoc : forall x links r,
  guardChain x (links ++ [r])
  = BinaryExpression (guardChain x links) AmpersandAmpersandToken r.
Proof. intros; unfold guardChain; now rewrite fold_left_app. Qed.

Lemma asChainableExpression_of_chainNode : forall chain,
  asChainableExpression (chainNode chain) = Some chain.
Proof. destruct chain; reflexivity. Qed.

Lemma isChainableExpression_asChainable : forall e,
  isChainableExpression e = false <-> asChainableExpression e = None.
Proof. destruct e; simpl; split; intro; (reflexivity || discriminate). Qed.

Lemma collectChains_guardChain : forall x chains acc,
  isAmpersandAmpersandExpression x = false ->
  collectChains (guardChain x (map chainNode chains)) acc = Some (chains ++ acc)%list.
Proof.
  intros x chains; induction chains as [|c chains IH] using rev_ind;
    intros acc Hx.
  - simpl. now apply collectChains_stop.
  - rewrite map_app; simpl. rewrite guardChain_snoc; simpl.
    rewrite asChainableExpression_of_chainNode.
    rewrite IH by assumption. now rewrite <- app_assoc.
Qed.

Lemma collectChains_inv : forall e acc chains,
  collectChains e acc = Some chains ->
  exists x found,
    isAmpersandAmpersandExpression x = false
    /\ chains = (found ++ acc)%list
    /\ e = guardChain x (map chainNode found).
Proof.
  induction e; intros acc chains H.
  all: try (simpl in H; injection H as <-;
            eexists; exists []; repeat split; reflexivity).
  destruct operatorToken;
    try (simpl in H; injection H as <-;
         eexists; exists []; repeat split; reflexivity).
  simpl in H.
  destruct (asChainableExpression e2) as [c|] eqn:E; [|discriminate].
  apply IHe1 in H. destruct H as (x & found & Hx & -> & ->).
  exists x, (found ++ [c])%list; repeat split; auto.
  - now rewrite <- app_assoc.
  - rewrite map_app; simpl. rewrite guardChain_snoc.
    now rewrite (asChainableExpression_chainNode e2 c E).
Qed.

Lemma checkChains_linked : forall getText rest prefix,
  checkChains getText prefix rest = true <-> linked getText (prefix :: rest).
Proof.
  intros getText rest; induction rest as [|chain rest IH]; intro prefix.
  - split; auto. intros _ [|i] before chain H1 H2; simpl in *; discriminate.
  - simpl. split.
    + intro H.
      destruct (isEqualityExpression getText (chainNode prefix)
                  (chainExpression chain)) eqn:E; simpl in H; [|discriminate].
      destruct (isPrivateLink chain) eqn:P.
      * destruct chain; simpl in P; try discriminate.
        unfold isPrivateLink in P. rewrite P in H; discriminate.
      * assert (Hrest : checkChains getText chain rest = true).
        { destruct chain; auto. simpl in P; rewrite P in H; auto. }
        apply IH in Hrest.
        intros [|i] before c H1 H2.
        -- simpl in H1, H2. injection H1 as <-; injection H2 as <-. auto.
        -- apply (Hrest i before c); auto.
    + intro L.
      destruct (L 0 prefix chain eq_refl eq_refl) as [E P].
      rewrite E; simpl.
      assert (Hrest : checkChains getText chain rest = true).
      { apply IH. intros i before c H1 H2. apply (L (S i) before c); auto. }
      destruct chain; auto. simpl in P; rewrite P; auto.
Qed.

Lemma getOptionalChains_guardChain : forall getText x chains,
  isAmpersandAmpersandExpression x = false ->
  getOptionalChains getText (guardChain x (map chainNode chains))
  = match chains with
    | [] => None
    | first :: rest =>
        if checkChains getText first rest then Some chains else None
    end.
Proof.
  intros getText x chains Hx; unfold getOptionalChains.
  rewrite (collectChains_guardChain x chains [] Hx), app_nil_r.
  reflexivity.
Qed.

(** X5.  On [((x && r1) && ...) && rn] with [x] no [&&] expression and every
    [ri] an access, the matcher returns the links [[r1; ...; rn]] in source
    order, and it does so exactly when there is at least one link and each
    link after the first stands on the one before it and has no private
    name; otherwise it returns no match. *)
Theorem X5_getOptionalChains_guardChain :
  forall getText x chains,
    isAmpersandAmpersandExpression x = false ->
    (getOptionalChains getText (guardChain x (map chainNode chains)) = Some chains
     <-> chains <> [] /\ linked getText chains)
    /\ (forall found,
          getOptionalChains getText (guardChain x (map chainNode chains))
          = Some found -> found = chains).
Proof.
  intros getText x chains Hx.
  rewrite (getOptionalChains_guardChain getText x chains Hx).
  destruct chains as [|first rest].
  - split; [split; [discriminate | intros [H _]; contradiction] | discriminate].
  - destruct (checkChains getText first rest) eqn:C.
    + split; [split|].
      * intros _; split; [discriminate | now apply checkChains_linked].
      * reflexivity.
      * intros found H; now injection H.
    + split; [split|]; try discriminate.
      intros [_ L]. apply checkChains_linked in L. congruence.
Qed.

Lemma X5_getOptionalChains_guardChain_witness :
  getOptionalChains printNode Sample.guard3
  = Some [PropertyAccess Sample.a false (IdentifierName "b");
          PropertyAccess Sample.a_b false (IdentifierName "c")].
Proof.
  refine (proj2 (proj1 (X5_getOptionalChains_guardChain printNode Sample.a
            [PropertyAccess Sample.a false (IdentifierName "b");
             PropertyAccess Sample.a_b false (IdentifierName "c")] _)) _).
  - reflexivity.
  - split; [discriminate|].
    intros [|[|i]] before chain H1 H2; simpl in H1, H2; try discriminate.
    injection H1 as <-; injection H2 as <-. split; reflexivity.
Defined.

(** X6.  What the matcher returns is never empty, and it is the list of
    the right operands of the [&&] spine it was given, in source order,
    over a leftmost operand that is no [&&] expression; each link after
    the first stands on the one before and has no private name. *)
Theorem X6_getOptionalChains_sound :
  forall getText e chains,
    getOptionalChains getText e = Some chains ->
    isAmpersandAmpersandExpression e = true
    /\ chains <> []
    /\ linked getText chains
    /\ exists x,
         isAmpersandAmpersandExpression x = false
         /\ e = guardChain x (map chainNode chains).
Proof.
  intros getText e chains H. unfold getOptionalChains in H.
  destruct (collectChains e []) as [found|] eqn:C; [|discriminate].
  destruct found as [|first rest]; [discriminate|].
  destruct (checkChains getText first rest) eqn:K; [|discriminate].
  injection H as <-.
  apply collectChains_inv in C. destruct C as (x & found & Hx & Hf & ->).
  rewrite app_nil_r in Hf; subst found.
  split; [|split; [|split]].
  - destruct (rev_case _ (first :: rest)) as [E | (init & c & E)];
      [discriminate|].
    rewrite E, map_app; simpl map at 2.
    now rewrite guardChain_snoc.
  - discriminate.
  - now apply checkChains_linked.
  - exists x; auto.
Qed.

Lemma X6_getOptionalChains_sound_witness :
  isAmpersandAmpersandExpression Sample.long_guard = true
  /\ [PropertyAccess Sample.a false (IdentifierName "b");
      ElementAccess Sample.a_b false (StringLiteral "c");
      Call Sample.a_b_c false None []] <> []
  /\ linked printNode
       [PropertyAccess Sample.a false (IdentifierName "b");
        ElementAccess Sample.a_b false (StringLiteral "c");
        Call Sample.a_b_c false None []]
  /\ exists x,
       isAmpersandAmpersandExpression x = false
       /\ Sample.long_guard
          = guardChain x
              (map chainNode
                 [PropertyAccess Sample.a false (IdentifierName "b");
                  ElementAccess Sample.a_b false (StringLiteral "c");
                  Call Sample.a_b_c false None []]).
Proof.
  apply (X6_getOptionalChains_sound printNode Sample.long_guard).
  reflexivity.
Defined.

Lemma collectChains_root : forall links x x' acc,
  isAmpersandAmpersandExpression x = false ->
  isAmpersandAmpersandExpression x' = false ->
  collectChains (guardChain x links) acc
  = collectChains (guardChain x' links) acc.
Proof.
  induction links as [|r links IH] using rev_ind; intros x x' acc Hx Hx'.
  - simpl. now rewrite !collectChains_stop.
  - rewrite !guardChain_snoc; simpl.
    destruct (asChainableExpression r); auto.
Qed.

(** X7.  The matcher never looks at the leftmost operand of the [&&]
    spine: two guard chains that differ only there get the same answer. *)
Theorem X7_getOptionalChains_ignores_leftmost :
  forall getText x x' links,
    isAmpersandAmpersandExpression x = false ->
    isAmpersandAmpersandExpression x' = false ->
    getOptionalChains getText (guardChain x links)
    = getOptionalChains getText (guardChain x' links).
Proof.
  intros getText x x' links Hx Hx'. unfold getOptionalChains.
  now rewrite (collectChains_root links x x' [] Hx Hx').
Qed.

Lemma X7_getOptionalChains_ignores_leftmost_witness :
  getOptionalChains printNode Sample.guard
  = getOptionalChains printNode Sample.unrelated_guard.
Proof.
  apply (X7_getOptionalChains_ignores_leftmost printNode Sample.a Sample.x
           [Sample.a_b]); reflexivity.
Defined.

Lemma collectChains_mixed : forall links x link acc,
  In link links ->
  asChainableExpression link = None ->
  collectChains (guardChain x links) acc = None.
Proof.
  induction links as [|r links IH] using rev_ind; intros x link acc Hin Hl.
  - contradiction.
  - rewrite guardChain_snoc; simpl.
    destruct (asChainableExpression r) as [c|] eqn:E; [|reflexivity].
    apply in_app_or in Hin. destruct Hin as [Hin | [-> | []]].
    + eapply IH; eauto.
    + congruence.
Qed.

(** X8.  One right operand of the [&&] spine that is no member, element
    or call access voids the match of the whole chain. *)
Theorem X8_getOptionalChains_mixed_chain :
  forall getText x links link,
    In link links ->
    isChainableExpression link = false ->
    getOptionalChains getText (guardChain x links) = None.
Proof.
  intros getText x links link Hin Hl. unfold getOptionalChains.
  apply isChainableExpression_asChainable in Hl.
  now rewrite (collectChains_mixed links x link [] Hin Hl).
Qed.

Lemma X8_getOptionalChains_mixed_chain_witness :
  getOptionalChains printNode
    (guardChain Sample.a [Sample.a_b; Sample.x; Sample.a_b_c]) = None.
Proof.
  apply (X8_getOptionalChains_mixed_chain printNode Sample.a
           [Sample.a_b; Sample.x; Sample.a_b_c] Sample.x).
  - right; left; reflexivity.
  - reflexivity.
Defined.

(* ================================================================== *)
(** ** Further facts: trees the rules leave alone *)
(* ================================================================== *)

Lemma In_list_max : forall l n, In n l -> n <= list_max l.
Proof.
  induction l as [|m l IH]; intros n H; [contradiction|].
  simpl. destruct H as [-> | H]; [lia|]. apply IH in H; lia.
Qed.

Lemma height_children : forall node child,
  In child (childrenOf node) -> height child < height node.
Proof.
  intros node child H; destruct node; simpl in *;
    repeat match goal with
           | H : _ \/ _ |- _ => destruct H as [<- | H]
           | H : False |- _ => contradiction
           end; try lia.
  - apply (in_map height) in H. apply In_list_max in H. lia.
  - apply (in_map height) in H. apply In_list_max in H. lia.
Qed.

Lemma noCandidate_children : forall ternaries node child,
  noCandidate ternaries node = true ->
  In child (childrenOf node) ->
  noCandidate ternaries child = true.
Proof.
  intros ternaries node child Hq H; destruct node; simpl in *;
    repeat match goal with
           | H : _ && _ = true |- _ => apply andb_prop in H; destruct H
           | H : _ \/ _ |- _ => destruct H as [<- | H]
           | H : False |- _ => contradiction
           end; auto.
  - eapply forallb_forall; eauto.
  - eapply forallb_forall; eauto.
Qed.

Lemma visitNodes_unchanged : forall visit nodes,
  (forall node, In node nodes -> visit node = Return node) ->
  visitNodes visit nodes = Return nodes.
Proof.
  intros visit nodes; induction nodes as [|node nodes IH]; intro H;
    [reflexivity|].
  simpl. rewrite (H node) by (left; reflexivity); simpl.
  rewrite IH by (intros; apply H; now right). reflexivity.
Qed.

Lemma visitEachChild_unchanged : forall visit node,
  (forall child, In child (childrenOf node) -> visit child = Return child) ->
  visitEachChild visit node = Return node.
Proof.
  intros visit node H; destruct node; simpl in *; try reflexivity;
    repeat (rewrite H by auto; simpl); try reflexivity.
  - rewrite visitNodes_unchanged by auto. reflexivity.
  - rewrite visitNodes_unchanged by auto. reflexivity.
Qed.

Lemma getOptionalChains_noCandidate : forall getText ternaries l op r,
  noCandidate ternaries (BinaryExpression l op r) = true ->
  getOptionalChains getText (BinaryExpression l op r) = None.
Proof.
  intros getText ternaries l op r H; simpl in H.
  apply andb_prop in H; destruct H as [H _].
  apply andb_prop in H; destruct H as [H _].
  unfold getOptionalChains; destruct op; try reflexivity.
  simpl. apply negb_true_iff, isChainableExpression_asChainable in H.
  now rewrite H.
Qed.

Lemma visitor_noCandidate :
  forall getText v3_7 target ternaries fuel node,
    (ternaries = true -> (target <? v3_7)%Z = true) ->
    noCandidate ternaries node = true ->
    height node < fuel ->
    visitor getText v3_7 target fuel node = Return node.
Proof.
  intros getText v3_7 target ternaries fuel; induction fuel as [|fuel IH];
    intros node Hgate Hq Hh; [lia|].
  assert (Hchildren :
    visitEachChild (visitor getText v3_7 target fuel) node = Return node).
  { apply visitEachChild_unchanged. intros child Hin.
    apply IH; auto.
    - eapply noCandidate_children; eauto.
    - apply height_children in Hin; lia. }
  destruct node; try exact Hchildren.
  - change (upgradeBinaryExpression getText (visitor getText v3_7 target fuel)
              (BinaryExpression node1 operatorToken node2)
            = Return (BinaryExpression node1 operatorToken node2)).
    unfold upgradeBinaryExpression.
    now rewrite (getOptionalChains_noCandidate getText ternaries).
  - change (upgradeConditionalExpression getText v3_7 target
              (visitor getText v3_7 target fuel) node1 node2 node3
            = Return (ConditionalExpression node1 node2 node3)).
    rewrite upgradeConditionalExpression_gated; [exact Hchildren|].
    apply Hgate. simpl in Hq. destruct ternaries; [reflexivity | discriminate].
Qed.

Lemma visitEachChild_noCandidate :
  forall getText v3_7 target ternaries fuel node,
    (ternaries = true -> (target <? v3_7)%Z = true) ->
    noCandidate ternaries node = true ->
    height node <= fuel ->
    visitEachChild (visitor getText v3_7 target fuel) node = Return node.
Proof.
  intros getText v3_7 target ternaries fuel node Hgate Hq Hh.
  apply visitEachChild_unchanged. intros child Hin.
  apply (visitor_noCandidate getText v3_7 target ternaries); auto.
  - eapply noCandidate_children; eauto.
  - apply height_children in Hin; lia.
Qed.

(** X9.  A tree with no ternary in which every [&&] has a right operand
    that is no member, element or call access comes back from the visitor
    as it went in, at every target; so do the results [a?.b?.c] and
    [a ?? b] of the two rules. *)
Theorem X9_visitor_leaves_plain_trees :
  forall getText v3_7 target fuel node,
    noCandidate false node = true ->
    height node < fuel ->
    visitor getText v3_7 target fuel node = Return node.
Proof.
  intros getText v3_7 target fuel node Hq Hh.
  apply (visitor_noCandidate getText v3_7 target false); auto.
  discriminate.
Qed.

Lemma X9_visitor_leaves_plain_trees_witness :
  visitor printNode Sample.v3_7 Sample.v3_8 3 Sample.chain3 = Return Sample.chain3
  /\ visitor printNode Sample.v3_7 Sample.v3_8 2 Sample.coalesce
     = Return Sample.coalesce.
Proof.
  split.
  - apply (X9_visitor_leaves_plain_trees printNode Sample.v3_7 Sample.v3_8 3
             Sample.chain3); [reflexivity | simpl; lia].
  - apply (X9_visitor_leaves_plain_trees printNode Sample.v3_7 Sample.v3_8 2
             Sample.coalesce); [reflexivity | simpl; lia].
Defined.

(** X10.  Below [v3_7] the visitor rewrites no ternary, whatever its
    shape: a tree in which every [&&] has a right operand that is no
    access comes back as it went in, ternaries included. *)
Theorem X10_visitor_below_v3_7_keeps_ternaries :
  forall getText v3_7 target fuel node,
    (target <? v3_7)%Z = true ->
    noCandidate true node = true ->
    height node < fuel ->
    visitor getText v3_7 target fuel node = Return node.
Proof.
  intros getText v3_7 target fuel node Ht Hq Hh.
  apply (visitor_noCandidate getText v3_7 target true); auto.
Qed.

Lemma X10_visitor_below_v3_7_keeps_ternaries_witness :
  visitor printNode Sample.v3_7 Sample.v3_6 4 Sample.ternary_or
  = Return Sample.ternary_or.
Proof.
  apply (X10_visitor_below_v3_7_keeps_ternaries printNode
           Sample.v3_7 Sample.v3_6 4 Sample.ternary_or);
    [reflexivity | reflexivity | simpl; lia].
Defined.

(* ================================================================== *)
(** ** Further facts: a guard chain of any length *)
(* ================================================================== *)

Lemma checkChains_linksFrom : forall getText steps receiver step,
  checkChains getText (linkOn receiver step)
    (linksFrom (access false receiver step) steps) = true.
Proof.
  intros getText steps; induction steps as [|next steps IH];
    intros receiver step; [reflexivity|].
  simpl linksFrom. simpl checkChains.
  replace (chainNode (linkOn receiver step)) with (access false receiver step)
    by (destruct step; reflexivity).
  replace (chainExpression (linkOn (access false receiver step) next))
    with (access false receiver step) by (destruct next; reflexivity).
  rewrite isEqualityExpression_refl; simpl.
  replace (match linkOn (access false receiver step) next with
           | PropertyAccess _ _ name => isPrivateIdentifier name
           | _ => false
           end) with false by (destruct next; reflexivity).
  apply IH.
Qed.

Lemma height_optionalLink : forall left chain,
  height left < height (optionalLink left chain).
Proof. intros left chain; destruct chain; simpl; lia. Qed.

Lemma height_collapse : forall rest lastChain,
  height lastChain <= height (fold_left optionalLink rest lastChain).
Proof.
  induction rest as [|chain rest IH]; intro lastChain; simpl; [lia|].
  specialize (IH (optionalLink lastChain chain)).
  pose proof (height_optionalLink lastChain chain). lia.
Qed.

Lemma noCandidate_optionalLink : forall ternaries left chain,
  noCandidate ternaries left = true ->
  linkNoCandidate ternaries chain = true ->
  noCandidate ternaries (optionalLink left chain) = true.
Proof.
  intros ternaries left chain Hl Hc; destruct chain; simpl in *;
    rewrite ?Hl, ?Hc; reflexivity.
Qed.

Lemma createOptionalChain_link :
  forall getText v3_7 target ternaries fuel chain left,
    (ternaries = true -> (target <? v3_7)%Z = true) ->
    noCandidate ternaries left = true ->
    linkNoCandidate ternaries chain = true ->
    isPrivateLink chain = false ->
    height (optionalLink left chain) <= fuel ->
    createOptionalChainByChainableExpression (visitor getText v3_7 target fuel)
      chain left
    = Return (optionalLink left chain).
Proof.
  intros getText v3_7 target ternaries fuel chain left Hgate Hl Hc Hp Hh.
  assert (Hleft :
    visitEachChild (visitor getText v3_7 target fuel) left = Return left).
  { apply (visitEachChild_noCandidate getText v3_7 target ternaries); auto.
    pose proof (height_optionalLink left chain); lia. }
  destruct chain as [e q name | e q a | e q targs args]; simpl in *;
    rewrite Hleft; simpl.
  - destruct name; [reflexivity | discriminate].
  - assert (Ha : visitEachChild (visitor getText v3_7 target fuel) a = Return a).
    { apply (visitEachChild_noCandidate getText v3_7 target ternaries); auto.
      lia. }
    rewrite Ha. reflexivity.
  - rewrite visitNodes_unchanged; [reflexivity|].
    intros node Hin.
    apply (visitor_noCandidate getText v3_7 target ternaries); auto.
    + eapply forallb_forall; eauto.
    + apply (in_map height) in Hin. apply In_list_max in Hin. lia.
Qed.

Lemma createOptionalChainsFrom_links :
  forall getText v3_7 target ternaries fuel rest lastChain,
    (ternaries = true -> (target <? v3_7)%Z = true) ->
    noCandidate ternaries lastChain = true ->
    forallb (linkNoCandidate ternaries) rest = true ->
    (forall chain, In chain rest -> isPrivateLink chain = false) ->
    height (fold_left optionalLink rest lastChain) <= fuel ->
    createOptionalChainsFrom (visitor getText v3_7 target fuel) lastChain rest
    = Return (fold_left optionalLink rest lastChain).
Proof.
  intros getText v3_7 target ternaries fuel rest;
    induction rest as [|chain rest IH];
    intros lastChain Hgate Hl Hs Hp Hh; [reflexivity|].
  simpl in Hs. apply andb_prop in Hs. destruct Hs as [Hc Hs].
  cbn [createOptionalChainsFrom fold_left] in *.
  rewrite (createOptionalChain_link getText v3_7 target ternaries); auto.
  - cbn [bind]. apply IH; auto.
    + now apply noCandidate_optionalLink.
    + intros c Hin. apply Hp. now right.
  - apply Hp. now left.
  - pose proof (height_collapse rest (optionalLink lastChain chain)). lia.
Qed.

Lemma linked_public : forall getText first rest chain,
  linked getText (first :: rest) ->
  In chain rest ->
  isPrivateLink chain = false.
Proof.
  intros getText first rest chain L Hin.
  apply In_nth_error in Hin. destruct Hin as [i Hi].
  assert (Hlt : i < length rest).
  { apply nth_error_Some. congruence. }
  destruct (nth_error (first :: rest) i) as [before|] eqn:B.
  - exact (proj2 (L i before chain B Hi)).
  - apply nth_error_None in B. simpl in B. lia.
Qed.

Lemma guardChain_is_binary : forall x first rest,
  exists l r,
    guardChain x (map chainNode (first :: rest))
    = BinaryExpression l AmpersandAmpersandToken r.
Proof.
  intros x first rest.
  destruct (rev_case _ (first :: rest)) as [E | (init & c & E)];
    [discriminate|].
  rewrite E, map_app; simpl map at 2. rewrite guardChain_snoc. eauto.
Qed.

Lemma guardChain_collapses :
  forall getText v3_7 target fuel x first rest,
    isAmpersandAmpersandExpression x = false ->
    linked getText (first :: rest) ->
    isPrivateLink first = false ->
    noCandidate (target <? v3_7)%Z (chainExpression first) = true ->
    forallb (linkNoCandidate (target <? v3_7)%Z) (first :: rest) = true ->
    height (collapsed first rest) <= fuel ->
    visitor getText v3_7 target (S fuel)
      (guardChain x (map chainNode (first :: rest)))
    = Return (collapsed first rest).
Proof.
  intros getText v3_7 target fuel x first rest Hx L Hp Hroot Hs Hh.
  destruct (guardChain_is_binary x first rest) as (l & r & Hbinary).
  assert (Hvisit :
    visitor getText v3_7 target (S fuel)
      (guardChain x (map chainNode (first :: rest)))
    = upgradeBinaryExpression getText (visitor getText v3_7 target fuel)
        (guardChain x (map chainNode (first :: rest)))).
  { rewrite Hbinary. reflexivity. }
  rewrite Hvisit. unfold upgradeBinaryExpression.
  rewrite (getOptionalChains_guardChain getText x _ Hx).
  rewrite (proj2 (checkChains_linked getText rest first) L).
  simpl in Hs. apply andb_prop in Hs. destruct Hs as [Hfirst Hs].
  unfold createOptionalChains, collapsed in *.
  rewrite (createOptionalChain_link getText v3_7 target (target <? v3_7)%Z);
    auto.
  - cbn [bind].
    apply (createOptionalChainsFrom_links getText v3_7 target
             (target <? v3_7)%Z); auto.
    + now apply noCandidate_optionalLink.
    + intros c Hin. eapply linked_public; eauto.
  - pose proof (height_collapse rest
                  (optionalLink (chainExpression first) first)). lia.
Qed.

(** X11.  A guard chain of any length [x && c1 && c2 && ...] whose right
    operands are accesses comes back from one call of the visitor as one
    optional chain, built on the receiver of [c1] with the name, argument
    or arguments of each link in turn, when the comparator finds each
    link after the first to stand on the one before it, no member name is
    private, and the receiver of [c1] and the arguments of the links offer
    the rules nothing.  The leftmost operand [x] is any expression that
    is no [&&]; the receivers of the later links are not in the result. *)
Theorem X11_guard_chain_collapses :
  forall getText v3_7 target fuel x first rest,
    isAmpersandAmpersandExpression x = false ->
    linked getText (first :: rest) ->
    isPrivateLink first = false ->
    noCandidate (target <? v3_7)%Z (chainExpression first) = true ->
    forallb (linkNoCandidate (target <? v3_7)%Z) (first :: rest) = true ->
    height (collapsed first rest) <= fuel ->
    visitor getText v3_7 target (S fuel)
      (guardChain x (map chainNode (first :: rest)))
    = Return (collapsed first rest).
Proof. exact guardChain_collapses. Qed.

Lemma X11_guard_chain_collapses_witness :
  guardChain Sample.x
    (map chainNode
       [PropertyAccess Sample.a false (IdentifierName "b");
        ElementAccess Sample.a_b false (StringLiteral "c");
        Call Sample.a_b_c false None []])
  = BinaryExpression
      (BinaryExpression (BinaryExpression Sample.x AmpersandAmpersandToken Sample.a_b)
         AmpersandAmpersandToken Sample.a_b_c)
      AmpersandAmpersandToken Sample.a_b_c_call
  /\ visitor printNode Sample.v3_7 Sample.v3_8 4
       (guardChain Sample.x
          (map chainNode
             [PropertyAccess Sample.a false (IdentifierName "b");
              ElementAccess Sample.a_b false (StringLiteral "c");
              Call Sample.a_b_c false None []]))
     = Return Sample.long_chain.
Proof.
  split; [reflexivity|].
  apply (X11_guard_chain_collapses printNode Sample.v3_7 Sample.v3_8 3
           Sample.x
           (PropertyAccess Sample.a false (IdentifierName "b"))
           [ElementAccess Sample.a_b false (StringLiteral "c");
            Call Sample.a_b_c false None []]).
  - reflexivity.
  - apply checkChains_linked. reflexivity.
  - reflexivity.
  - reflexivity.
  - reflexivity.
  - simpl; lia.
Defined.

(* ================================================================== *)
(** ** Further facts: the exceptions of the visitor *)
(* ================================================================== *)

Lemma onlyCastFailure_bind : forall (A B : Type) (m : Outcome A)
    (k : A -> Outcome B),
  onlyCastFailure m ->
  (forall a, m = Return a -> onlyCastFailure (k a)) ->
  onlyCastFailure (bind m k).
Proof.
  intros A B m k Hm Hk msg H. destruct m as [a| m0 |]; simpl in H.
  - exact (Hk a eq_refl msg H).
  - apply Hm. injection H as <-. reflexivity.
  - discriminate.
Qed.

Lemma onlyCastFailure_Return : forall (A : Type) (a : A),
  onlyCastFailure (Return a).
Proof. intros A a msg H; discriminate. Qed.

Lemma onlyCastFailure_cast : forall name, onlyCastFailure (cast_isIdentifier name).
Proof.
  intros [text|text] msg H; simpl in H; [discriminate|].
  injection H as <-. reflexivity.
Qed.

Section OnlyCastFailure.

Variable visit : Node -> Outcome Node.
Hypothesis visit_only : forall node, onlyCastFailure (visit node).

Lemma onlyCastFailure_visitNodes : forall nodes,
  onlyCastFailure (visitNodes visit nodes).
Proof.
  induction nodes as [|node nodes IH]; simpl.
  - apply onlyCastFailure_Return.
  - apply onlyCastFailure_bind; [apply visit_only|]. intros node' _.
    apply onlyCastFailure_bind; [apply IH|]. intros; apply onlyCastFailure_Return.
Qed.

Lemma onlyCastFailure_visitEachChild : forall node,
  onlyCastFailure (visitEachChild visit node).
Proof.
  destruct node; simpl;
    repeat first
      [ apply onlyCastFailure_Return
      | apply onlyCastFailure_bind;
        [ first [ apply visit_only | apply onlyCastFailure_visitNodes ]
        | intros ? _ ] ].
Qed.

Lemma onlyCastFailure_createOptionalChain : forall chain left,
  onlyCastFailure (createOptionalChainByChainableExpression visit chain left).
Proof.
  intros chain left; destruct chain; simpl;
    repeat first
      [ apply onlyCastFailure_Return
      | apply onlyCastFailure_bind;
        [ first [ apply onlyCastFailure_visitEachChild
                | apply onlyCastFailure_visitNodes
                | apply onlyCastFailure_cast ]
        | intros ? _ ] ].
Qed.

Lemma onlyCastFailure_createOptionalChainsFrom : forall rest lastChain,
  onlyCastFailure (createOptionalChainsFrom visit lastChain rest).
Proof.
  induction rest as [|chain rest IH]; intro lastChain; simpl.
  - apply onlyCastFailure_Return.
  - apply onlyCastFailure_bind;
      [apply onlyCastFailure_createOptionalChain | intros; apply IH].
Qed.

End OnlyCastFailure.

Lemma getOptionalChains_nonempty : forall getText e chains,
  getOptionalChains getText e = Some chains -> chains <> [].
Proof.
  intros getText e chains H; unfold getOptionalChains in H.
  destruct (collectChains e []) as [[|first rest]|]; try discriminate.
  destruct (checkChains getText first rest); [|discriminate].
  injection H as <-; discriminate.
Qed.

Lemma visitor_onlyCastFailure : forall getText v3_7 target fuel node,
  onlyCastFailure (visitor getText v3_7 target fuel node).
Proof.
  intros getText v3_7 target fuel.
  induction fuel as [|fuel IH]; intro node; [intros msg H; discriminate|].
  destruct node; try (apply onlyCastFailure_visitEachChild; exact IH).
  - change (onlyCastFailure
              (upgradeBinaryExpression getText (visitor getText v3_7 target fuel)
                 (BinaryExpression node1 operatorToken node2))).
    unfold upgradeBinaryExpression.
    destruct (getOptionalChains getText _) as [chains|] eqn:G;
      [|apply onlyCastFailure_visitEachChild; exact IH].
    apply getOptionalChains_nonempty in G.
    destruct chains as [|first rest]; [contradiction|].
    unfold createOptionalChains.
    apply onlyCastFailure_bind;
      [apply onlyCastFailure_createOptionalChain; exact IH|].
    intros; apply onlyCastFailure_createOptionalChainsFrom; exact IH.
  - change (onlyCastFailure
              (upgradeConditionalExpression getText v3_7 target
                 (visitor getText v3_7 target fuel) node1 node2 node3)).
    unfold upgradeConditionalExpression.
    destruct (target >=? v3_7)%Z;
      [|apply onlyCastFailure_visitEachChild; exact IH].
    destruct (getNullishCondBranch getText node1 node2 node3 _) as [[branch b]|];
      [|apply onlyCastFailure_visitEachChild; exact IH].
    apply onlyCastFailure_bind;
      [apply onlyCastFailure_visitEachChild; exact IH|]. intros ? _.
    apply onlyCastFailure_bind;
      [apply onlyCastFailure_visitEachChild; exact IH|]. intros ? _.
    apply onlyCastFailure_Return.
Qed.



(* ================================================================== *)
(** ** Further facts: what the classifier answers *)
(* ================================================================== *)

Lemma binaryCompare_operand : forall cb left op right subject,
  (forall a b t, cb a op b = Some t -> t = a) ->
  binaryCompare cb left op right = Some subject ->
  subject = left \/ subject = right.
Proof.
  intros cb l op r subject Hcb H; unfold binaryCompare, orElse in H.
  destruct (cb l op r) as [t|] eqn:E.
  - injection H as <-. left; eauto.
  - right; eauto.
Qed.

Lemma orElse_Some : forall (A : Type) (x y : option A) t,
  orElse x y = Some t -> x = Some t \/ y = Some t.
Proof. intros A [a|] y t H; simpl in H; auto. Qed.

Lemma isNullableEqualityExpression_operand : forall left op right subject,
  isNullableEqualityExpression left op right = Some subject ->
  (subject = skipParens left \/ subject = skipParens right)
  /\ (isEqualityOperator op || isStrictEqualityOperator op = true).
Proof.
  intros l op r subject H.
  assert (Hop : isEqualityOperator op || isStrictEqualityOperator op = true).
  { destruct op; try reflexivity;
      unfold isNullableEqualityExpression, isEqualityOrNotToNull,
        isStrictEqualityOrNotToNull, isStrictEqualityOrNotToUndefined,
        isStrictEqualityOrNotToVoidExpression, binaryCompare,
        doEqualityOrNotToNullCompare, doStrictEqualityOrNotToNullCompare,
        doStrictEqualityOrNotToUndefinedCompare,
        doStrictEqualityOrNotToVoidExpressionCompare in H;
      simpl in H; discriminate. }
  split; [|exact Hop].
  unfold isNullableEqualityExpression in H.
  repeat (apply orElse_Some in H; destruct H as [H | H]).
  all: unfold doEqualityOrNotToNullCompare, doStrictEqualityOrNotToNullCompare,
         doStrictEqualityOrNotToUndefinedCompare,
         doStrictEqualityOrNotToVoidExpressionCompare in H;
       destruct (_ && _) in H; [injection H as <-; auto | discriminate].
Qed.

Lemma height_skipParens : forall e, height (skipParens e) <= height e.
Proof. induction e; simpl; lia. Qed.

Lemma height_getNullableConditionTarget : forall getText condition,
  height (getNullableConditionTarget getText condition) <= height condition.
Proof.
  intros getText condition; unfold getNullableConditionTarget.
  pose proof (height_skipParens condition) as Hc.
  destruct (skipParens condition) as
    [| | | | | | |l op r| | | | |] eqn:E; try exact Hc.
  destruct (isNullableEqualityExpression l op r) as [t|] eqn:S1.
  - apply isNullableEqualityExpression_operand in S1.
    destruct S1 as [[-> | ->] _];
      [pose proof (height_skipParens l) | pose proof (height_skipParens r)];
      simpl in Hc; lia.
  - destruct (isBinaryNullableEqualityOrNotExpression getText l op r)
      as [t|] eqn:S2; [|exact Hc].
    unfold isBinaryNullableEqualityOrNotExpression in S2.
    destruct op; try discriminate;
      (destruct l as [| | | | | | |ll lop lr| | | | |]; try discriminate;
       destruct r as [| | | | | | |rl rop rr| | | | |]; try discriminate;
       destruct (isNullableEqualityExpression ll lop lr) as [s1|] eqn:L;
         [|discriminate];
       destruct (isNullableEqualityExpression rl rop rr) as [s2|];
         [|discriminate];
       destruct (isEqualityExpression getText s1 s2); [|discriminate];
       injection S2 as <-;
       apply isNullableEqualityExpression_operand in L;
       destruct L as [[-> | ->] _];
       [pose proof (height_skipParens ll) | pose proof (height_skipParens lr)];
       simpl in Hc; lia).
Qed.

(* ================================================================== *)
(** ** Further facts: the visitor ends *)
(* ================================================================== *)

Lemma endsWithin_weaken : forall bound bound' m,
  endsWithin bound m -> bound <= bound' -> endsWithin bound' m.
Proof. intros bound bound' [node|msg|] H Hle; simpl in *; auto; lia. Qed.

Lemma height_guardChain_root : forall links x,
  height x + length links <= height (guardChain x links).
Proof.
  induction links as [|r links IH] using rev_ind; intro x; simpl; [lia|].
  rewrite guardChain_snoc, length_app; simpl.
  specialize (IH x). lia.
Qed.

Lemma height_guardChain_link : forall links x j link,
  nth_error links j = Some link ->
  height link + (length links - j) <= height (guardChain x links).
Proof.
  induction links as [|r links IH] using rev_ind; intros x j link H.
  - destruct j; discriminate.
  - rewrite guardChain_snoc, length_app; simpl.
    destruct (Nat.lt_ge_cases j (length links)) as [Hlt | Hge].
    + rewrite nth_error_app1 in H by assumption.
      specialize (IH x j link H). lia.
    + rewrite nth_error_app2 in H by assumption.
      destruct (j - length links) as [|d] eqn:D; simpl in H.
      * injection H as <-. lia.
      * destruct d; discriminate.
Qed.

Section EndsWithin.

Variable visit : Node -> Outcome Node.
Variable fuel : nat.
Hypothesis visit_ends :
  forall node, height node < fuel -> endsWithin (height node) (visit node).

Lemma visitNodes_ends : forall nodes,
  (forall node, In node nodes -> height node < fuel) ->
  match visitNodes visit nodes with
  | Return nodes' => list_max (map height nodes') <= list_max (map height nodes)
  | Throw _ => True
  | OutOfFuel => False
  end.
Proof.
  induction nodes as [|node nodes IH]; intro H; simpl; [lia|].
  pose proof (visit_ends node (H node (or_introl eq_refl))) as Hn.
  destruct (visit node) as [node'| |]; simpl in *; auto.
  assert (IH' := IH (fun n Hin => H n (or_intror Hin))).
  destruct (visitNodes visit nodes) as [nodes'| |]; simpl in *; auto. lia.
Qed.

Lemma visitEachChild_ends : forall node,
  height node <= fuel ->
  endsWithin (height node) (visitEachChild visit node).
Proof.
  intros node Hh.
  assert (Hchild : forall child, In child (childrenOf node) ->
            endsWithin (height child) (visit child)).
  { intros child Hin. apply visit_ends.
    apply height_children in Hin. lia. }
  assert (Hlist : forall nodes,
            (forall n, In n nodes -> In n (childrenOf node)) ->
            match visitNodes visit nodes with
            | Return nodes' =>
                list_max (map height nodes') <= list_max (map height nodes)
            | Throw _ => True
            | OutOfFuel => False
            end).
  { intros nodes Hsub. apply visitNodes_ends. intros n Hin.
    apply Hsub, height_children in Hin. lia. }
  destruct node; simpl in *; try lia.
  - pose proof (Hchild node (or_introl eq_refl)).
    destruct (visit node); simpl in *; auto; lia.
  - pose proof (Hchild node (or_introl eq_refl)).
    destruct (visit node); simpl in *; auto; lia.
  - pose proof (Hchild node1 (or_introl eq_refl)).
    pose proof (Hchild node2 (or_intror (or_introl eq_refl))).
    destruct (visit node1); simpl in *; auto.
    destruct (visit node2); simpl in *; auto; lia.
  - pose proof (Hchild node1 (or_introl eq_refl)).
    pose proof (Hchild node2 (or_intror (or_introl eq_refl))).
    pose proof (Hchild node3 (or_intror (or_intror (or_introl eq_refl)))).
    destruct (visit node1); simpl in *; auto.
    destruct (visit node2); simpl in *; auto.
    destruct (visit node3); simpl in *; auto; lia.
  - pose proof (Hchild node (or_introl eq_refl)).
    destruct (visit node); simpl in *; auto; lia.
  - pose proof (Hchild node1 (or_introl eq_refl)).
    pose proof (Hchild node2 (or_intror (or_introl eq_refl))).
    destruct (visit node1); simpl in *; auto.
    destruct (visit node2); simpl in *; auto; lia.
  - pose proof (Hchild node (or_introl eq_refl)).
    pose proof (Hlist arguments (fun n Hin => or_intror Hin)).
    destruct (visit node); simpl in *; auto.
    destruct (visitNodes visit arguments); simpl in *; auto; lia.
  - pose proof (Hlist children (fun n Hin => Hin)).
    destruct (visitNodes visit children); simpl in *; auto; lia.
Qed.

Lemma createOptionalChain_ends : forall chain left,
  height left <= fuel ->
  height (chainNode chain) <= fuel ->
  endsWithin (Nat.max (S (height left)) (height (chainNode chain)))
    (createOptionalChainByChainableExpression visit chain left).
Proof.
  intros chain left Hl Hc.
  pose proof (visitEachChild_ends left Hl) as Hleft.
  destruct chain as [e q name | e q a | e q targs args]; simpl in *.
  - destruct (visitEachChild visit left); simpl in *; auto.
    destruct name; simpl; auto. lia.
  - destruct (visitEachChild visit left); simpl in *; auto.
    assert (Ha : height a <= fuel) by lia.
    pose proof (visitEachChild_ends a Ha).
    destruct (visitEachChild visit a); simpl in *; auto. lia.
  - destruct (visitEachChild visit left); simpl in *; auto.
    assert (Hargs : forall n, In n args -> height n < fuel).
    { intros n Hin. apply (in_map height) in Hin.
      apply In_list_max in Hin. lia. }
    pose proof (visitNodes_ends args Hargs).
    destruct (visitNodes visit args); simpl in *; auto. lia.
Qed.

Lemma createOptionalChainsFrom_ends : forall rest lastChain bound,
  bound <= fuel ->
  height lastChain + length rest <= bound ->
  (forall j chain, nth_error rest j = Some chain ->
     height (chainNode chain) + (length rest - S j) <= bound) ->
  endsWithin bound (createOptionalChainsFrom visit lastChain rest).
Proof.
  induction rest as [|chain rest IH]; intros lastChain bound Hb Hl Hr;
    cbn [createOptionalChainsFrom length] in *; [simpl; lia|].
  pose proof (Hr 0 chain eq_refl) as Hc.
  assert (Hstep := createOptionalChain_ends chain lastChain
                     ltac:(lia) ltac:(lia)).
  destruct (createOptionalChainByChainableExpression visit chain lastChain)
    as [lastChain'| |]; cbn [bind endsWithin] in Hstep |- *; auto.
  apply IH; [assumption | lia |].
  intros j c Hj. specialize (Hr (S j) c Hj). lia.
Qed.

End EndsWithin.

Lemma visitor_ends : forall getText v3_7 target fuel node,
  height node < fuel ->
  endsWithin (height node) (visitor getText v3_7 target fuel node).
Proof.
  intros getText v3_7 target fuel; induction fuel as [|fuel IH];
    intros node Hh; [lia|].
  assert (Hchildren :
    endsWithin (height node)
      (visitEachChild (visitor getText v3_7 target fuel) node)).
  { apply (visitEachChild_ends _ fuel IH). lia. }
  destruct node; try exact Hchildren.
  - change (endsWithin (height (BinaryExpression node1 operatorToken node2))
              (upgradeBinaryExpression getText (visitor getText v3_7 target fuel)
                 (BinaryExpression node1 operatorToken node2))).
    unfold upgradeBinaryExpression.
    destruct (getOptionalChains getText _) as [chains|] eqn:G;
      [|exact Hchildren].
    unfold getOptionalChains in G.
    destruct (collectChains _ []) as [found|] eqn:C; [|discriminate].
    destruct found as [|first rest]; [discriminate|].
    destruct (checkChains getText first rest); [|discriminate].
    injection G as <-.
    apply collectChains_inv in C. destruct C as (x & found & Hx & Hf & He).
    rewrite app_nil_r in Hf; subst found.
    set (e := BinaryExpression node1 operatorToken node2) in *.
    assert (Hfirst : height (chainNode first) + S (length rest) <= height e).
    { rewrite He.
      pose proof (height_guardChain_link (map chainNode (first :: rest)) x 0
                    (chainNode first) eq_refl) as H.
      rewrite length_map in H. cbn [length] in H. lia. }
    assert (Hrest : forall j chain, nth_error rest j = Some chain ->
              height (chainNode chain) + (length rest - S j) <= height e).
    { intros j chain Hj. rewrite He.
      pose proof (height_guardChain_link (map chainNode (first :: rest)) x (S j)
                    (chainNode chain)) as H.
      cbn [map nth_error] in H. rewrite nth_error_map, Hj in H.
      specialize (H eq_refl).
      change (chainNode first :: map chainNode rest)
        with (map chainNode (first :: rest)) in H.
      rewrite length_map in H. cbn [length] in H. lia. }
    assert (Hroot : height (chainExpression first) < height (chainNode first)).
    { destruct first; simpl; lia. }
    unfold createOptionalChains.
    assert (Hstep := createOptionalChain_ends
                       (visitor getText v3_7 target fuel) fuel IH
                       first (chainExpression first) ltac:(lia) ltac:(lia)).
    destruct (createOptionalChainByChainableExpression _ first _)
      as [lastChain| |]; cbn [bind endsWithin] in Hstep |- *; auto.
    apply (createOptionalChainsFrom_ends _ fuel IH);
      [lia | lia | exact Hrest].
  - change (endsWithin (height (ConditionalExpression node1 node2 node3))
              (upgradeConditionalExpression getText v3_7 target
                 (visitor getText v3_7 target fuel) node1 node2 node3)).
    unfold upgradeConditionalExpression.
    destruct (target >=? v3_7)%Z; [|exact Hchildren].
    destruct (getNullishCondBranch getText node1 node2 node3 _)
      as [[branch b]|]; [|exact Hchildren].
    pose proof (height_getNullableConditionTarget getText node1) as Ht.
    simpl in Hh.
    assert (Hleft := visitEachChild_ends _ fuel IH
                       (getNullableConditionTarget getText node1) ltac:(lia)).
    destruct (visitEachChild _ (getNullableConditionTarget getText node1))
      as [left'| |]; cbn [bind endsWithin] in Hleft |- *; auto.
    assert (Hright := visitEachChild_ends _ fuel IH
                        (match branch with
                         | WhenTrue => node3
                         | WhenFalse => node2
                         end) ltac:(destruct branch; lia)).
    destruct (visitEachChild _ (match branch with
                                | WhenTrue => node3
                                | WhenFalse => node2
                                end))
      as [right'| |]; cbn [bind endsWithin] in Hright |- *; auto.
    unfold createNullishCoalesce; cbn [height]. destruct branch; lia.
Qed.



(* ================================================================== *)
(** ** Further facts: trees without private names *)
(* ================================================================== *)

Lemma getNullableConditionTarget_inherits :
  forall (P : Node -> Prop) getText condition,
    (forall e, P e -> P (skipParens e)) ->
    (forall l op r, P (BinaryExpression l op r) -> P l /\ P r) ->
    P condition ->
    P (getNullableConditionTarget getText condition).
Proof.
  intros P getText condition Hparens Hbinary Hc.
  unfold getNullableConditionTarget.
  apply Hparens in Hc.
  destruct (skipParens condition) as
    [| | | | | | |l op r| | | | |] eqn:E; try exact Hc.
  destruct (Hbinary l op r Hc) as [Hl Hr].
  destruct (isNullableEqualityExpression l op r) as [t|] eqn:S1.
  - apply isNullableEqualityExpression_operand in S1.
    destruct S1 as [[-> | ->] _]; auto.
  - destruct (isBinaryNullableEqualityOrNotExpression getText l op r)
      as [t|] eqn:S2; [|exact Hc].
    unfold isBinaryNullableEqualityOrNotExpression in S2.
    destruct op; try discriminate;
      (destruct l as [| | | | | | |ll lop lr| | | | |]; try discriminate;
       destruct r as [| | | | | | |rl rop rr| | | | |]; try discriminate;
       destruct (isNullableEqualityExpression ll lop lr) as [s1|] eqn:L;
         [|discriminate];
       destruct (isNullableEqualityExpression rl rop rr) as [s2|];
         [|discriminate];
       destruct (isEqualityExpression getText s1 s2); [|discriminate];
       injection S2 as <-;
       apply isNullableEqualityExpression_operand in L;
       destruct (Hbinary ll lop lr Hl) as [Hll Hlr];
       destruct L as [[-> | ->] _]; auto).
Qed.

Lemma noPrivate_skipParens : forall e,
  noPrivate e = true -> noPrivate (skipParens e) = true.
Proof. induction e; simpl; auto. Qed.

Lemma noPrivate_guardChain : forall links x,
  noPrivate (guardChain x links) = true ->
  noPrivate x = true /\ forall link, In link links -> noPrivate link = true.
Proof.
  induction links as [|r links IH] using rev_ind; intros x H.
  - split; [exact H | contradiction].
  - rewrite guardChain_snoc in H. simpl in H.
    apply andb_prop in H. destruct H as [Hl Hr].
    destruct (IH x Hl) as [Hx Hlinks]. split; [exact Hx|].
    intros link Hin. apply in_app_or in Hin.
    destruct Hin as [Hin | [<- | []]]; auto.
Qed.

Section StaysPublic.

Variable visit : Node -> Outcome Node.
Hypothesis visit_public :
  forall node, noPrivate node = true -> staysPublic (visit node).

Lemma visitNodes_public : forall nodes,
  forallb noPrivate nodes = true ->
  match visitNodes visit nodes with
  | Return nodes' => forallb noPrivate nodes' = true
  | Throw _ => False
  | OutOfFuel => True
  end.
Proof.
  induction nodes as [|node nodes IH]; intro H; simpl; [reflexivity|].
  simpl in H. apply andb_prop in H. destruct H as [Hn Hs].
  pose proof (visit_public node Hn) as Hv.
  destruct (visit node) as [node'| |]; simpl in *; auto.
  specialize (IH Hs).
  destruct (visitNodes visit nodes) as [nodes'| |]; simpl in *; auto.
  now rewrite Hv, IH.
Qed.

Lemma visitEachChild_public : forall node,
  noPrivate node = true -> staysPublic (visitEachChild visit node).
Proof.
  intros node H; destruct node; simpl in *; auto;
    repeat match goal with
           | H : _ && _ = true |- _ => apply andb_prop in H; destruct H
           end;
    repeat match goal with
           | H : noPrivate ?n = true |- context [visit ?n] =>
               let Hv := fresh "Hv" in
               pose proof (visit_public n H) as Hv;
               destruct (visit n); simpl in *; auto; clear H
           | H : forallb noPrivate ?l = true |- context [visitNodes visit ?l] =>
               let Hv := fresh "Hv" in
               pose proof (visitNodes_public l H) as Hv;
               destruct (visitNodes visit l); simpl in *; auto; clear H
           end;
    repeat match goal with
           | H : _ = true |- _ => rewrite H
           end; reflexivity.
Qed.

Lemma createOptionalChain_public : forall chain left,
  noPrivate (chainNode chain) = true ->
  noPrivate left = true ->
  staysPublic (createOptionalChainByChainableExpression visit chain left).
Proof.
  intros chain left Hc Hl.
  pose proof (visitEachChild_public left Hl) as Hleft.
  destruct chain as [e q name | e q a | e q targs args]; simpl in *;
    apply andb_prop in Hc; destruct Hc as [H1 H2];
    destruct (visitEachChild visit left) as [left'| |]; simpl in *; auto.
  - destruct name; simpl in *; [|discriminate]. now rewrite Hleft.
  - pose proof (visitEachChild_public a H2) as Ha.
    destruct (visitEachChild visit a); simpl in *; auto.
    now rewrite Hleft, Ha.
  - pose proof (visitNodes_public args H2) as Ha.
    destruct (visitNodes visit args); simpl in *; auto.
    now rewrite Hleft, Ha.
Qed.

Lemma createOptionalChainsFrom_public : forall rest lastChain,
  noPrivate lastChain = true ->
  (forall chain, In chain rest -> noPrivate (chainNode chain) = true) ->
  staysPublic (createOptionalChainsFrom visit lastChain rest).
Proof.
  induction rest as [|chain rest IH]; intros lastChain Hl Hr; simpl; auto.
  pose proof (createOptionalChain_public chain lastChain
                (Hr chain (or_introl eq_refl)) Hl) as Hstep.
  destruct (createOptionalChainByChainableExpression visit chain lastChain);
    simpl in *; auto.
Qed.

End StaysPublic.

Lemma visitor_public : forall getText v3_7 target fuel node,
  noPrivate node = true ->
  staysPublic (visitor getText v3_7 target fuel node).
Proof.
  intros getText v3_7 target fuel; induction fuel as [|fuel IH];
    intros node Hp; [exact I|].
  assert (Hchildren :
    staysPublic (visitEachChild (visitor getText v3_7 target fuel) node)).
  { apply visitEachChild_public; auto. }
  destruct node; try exact Hchildren.
  - change (staysPublic
              (upgradeBinaryExpression getText (visitor getText v3_7 target fuel)
                 (BinaryExpression node1 operatorToken node2))).
    unfold upgradeBinaryExpression.
    destruct (getOptionalChains getText _) as [chains|] eqn:G;
      [|exact Hchildren].
    unfold getOptionalChains in G.
    destruct (collectChains _ []) as [found|] eqn:C; [|discriminate].
    destruct found as [|first rest]; [discriminate|].
    destruct (checkChains getText first rest); [|discriminate].
    injection G as <-.
    apply collectChains_inv in C. destruct C as (x & found & Hx & Hf & He).
    rewrite app_nil_r in Hf; subst found.
    rewrite He in Hp. apply noPrivate_guardChain in Hp.
    destruct Hp as [_ Hlinks].
    assert (Hall : forall chain, In chain (first :: rest) ->
              noPrivate (chainNode chain) = true).
    { intros chain Hin. apply Hlinks. now apply in_map. }
    assert (Hroot : noPrivate (chainExpression first) = true).
    { pose proof (Hall first (or_introl eq_refl)) as H.
      destruct first; simpl in *; apply andb_prop in H; destruct H; auto. }
    unfold createOptionalChains.
    pose proof (createOptionalChain_public _ IH first (chainExpression first)
                  (Hall first (or_introl eq_refl)) Hroot) as Hstep.
    destruct (createOptionalChainByChainableExpression _ first _);
      simpl in Hstep |- *; auto.
    apply (createOptionalChainsFrom_public _ IH); auto.
    intros chain Hin. apply Hall. now right.
  - change (staysPublic
              (upgradeConditionalExpression getText v3_7 target
                 (visitor getText v3_7 target fuel) node1 node2 node3)).
    unfold upgradeConditionalExpression.
    destruct (target >=? v3_7)%Z; [|exact Hchildren].
    destruct (getNullishCondBranch getText node1 node2 node3 _)
      as [[branch b]|]; [|exact Hchildren].
    simpl in Hp.
    apply andb_prop in Hp. destruct Hp as [Hp H3].
    apply andb_prop in Hp. destruct Hp as [H1 H2].
    assert (Htarget :
      noPrivate (getNullableConditionTarget getText node1) = true).
    { apply (getNullableConditionTarget_inherits
               (fun e => noPrivate e = true)); auto.
      - apply noPrivate_skipParens.
      - intros l op r H. simpl in H. now apply andb_prop in H. }
    pose proof (visitEachChild_public _ IH _ Htarget) as Hleft.
    destruct (visitEachChild _ (getNullableConditionTarget getText node1))
      as [left'| |]; simpl in Hleft |- *; auto.
    assert (Hfallback :
      noPrivate (match branch with
                 | WhenTrue => node3
                 | WhenFalse => node2
                 end) = true) by (destruct branch; auto).
    pose proof (visitEachChild_public _ IH _ Hfallback) as Hright.
    destruct (visitEachChild _ (match branch with
                                | WhenTrue => node3
                                | WhenFalse => node2
                                end))
      as [right'| |]; simpl in Hright |- *; auto.
    now rewrite Hleft, Hright.
Qed.



(* ================================================================== *)
(** ** Further facts: the classifier of nullish comparisons *)
(* ================================================================== *)

(** X15.  Whatever the classifier of single comparisons answers is one of
    the two operands, parentheses stripped, and it answers only under
    [==], [!=], [===] and [!==]. *)
Theorem X15_isNullableEqualityExpression_answers_an_operand :
  forall left op right subject,
    isNullableEqualityExpression left op right = Some subject ->
    (subject = skipParens left \/ subject = skipParens right)
    /\ (op = EqualsEqualsToken \/ op = ExclamationEqualsToken
        \/ op = EqualsEqualsEqualsToken \/ op = ExclamationEqualsEqualsToken).
Proof.
  intros l op r subject H.
  apply isNullableEqualityExpression_operand in H.
  destruct H as [H Hop]; split; [exact H|].
  destruct op; simpl in Hop; try discriminate; auto.
Qed.

Lemma X15_isNullableEqualityExpression_answers_an_operand_witness :
  (Sample.a = skipParens (ParenthesizedExpression Sample.a)
   \/ Sample.a = skipParens NullKeyword)
  /\ (EqualsEqualsEqualsToken = EqualsEqualsToken
      \/ EqualsEqualsEqualsToken = ExclamationEqualsToken
      \/ EqualsEqualsEqualsToken = EqualsEqualsEqualsToken
      \/ EqualsEqualsEqualsToken = ExclamationEqualsEqualsToken).
Proof.
  apply (X15_isNullableEqualityExpression_answers_an_operand
           (ParenthesizedExpression Sample.a) EqualsEqualsEqualsToken
           NullKeyword Sample.a).
  reflexivity.
Defined.

Lemma null_comparison_classified : forall s op,
  isEqualityOperator op || isStrictEqualityOperator op = true ->
  isNullableEqualityExpression s op NullKeyword = Some (skipParens s)
  /\ isNullableEqualityExpression NullKeyword op s = Some (skipParens s).
Proof.
  intros s op Hop.
  unfold isNullableEqualityExpression, isEqualityOrNotToNull,
    isStrictEqualityOrNotToNull, binaryCompare,
    doEqualityOrNotToNullCompare, doStrictEqualityOrNotToNullCompare.
  cbn [skipParens kind].
  destruct (SyntaxKind.eqb (kind (skipParens s)) SyntaxKind.NullKeyword) eqn:K.
  - apply SyntaxKind_eqb_eq in K.
    assert (E : skipParens s = NullKeyword)
      by (destruct (skipParens s); try discriminate; reflexivity).
    rewrite E. destruct op; try discriminate; split; reflexivity.
  - destruct op; try discriminate; simpl; rewrite ?K; split; reflexivity.
Qed.

(** X16.  A comparison with the [null] literal by [==], [!=], [===] or
    [!==] is classified with the other operand, parentheses stripped, as
    its subject, on whichever side [null] stands. *)
Theorem X16_null_comparison_either_side :
  forall s op,
    op = EqualsEqualsToken \/ op = ExclamationEqualsToken
    \/ op = EqualsEqualsEqualsToken \/ op = ExclamationEqualsEqualsToken ->
    isNullableEqualityExpression s op NullKeyword = Some (skipParens s)
    /\ isNullableEqualityExpression NullKeyword op s = Some (skipParens s).
Proof.
  intros s op Hop. apply null_comparison_classified.
  destruct Hop as [-> | [-> | [-> | ->]]]; reflexivity.
Qed.

Lemma X16_null_comparison_either_side_witness :
  isNullableEqualityExpression (ParenthesizedExpression Sample.a_b)
    ExclamationEqualsToken NullKeyword = Some Sample.a_b
  /\ isNullableEqualityExpression NullKeyword ExclamationEqualsToken
       (ParenthesizedExpression Sample.a_b) = Some Sample.a_b.
Proof.
  apply (X16_null_comparison_either_side (ParenthesizedExpression Sample.a_b)
           ExclamationEqualsToken).
  right; left; reflexivity.
Defined.



(* ================================================================== *)
(** ** Further facts: the rule for ternaries *)
(* ================================================================== *)

Lemma upgradeConditionalExpression_passes :
  forall getText v3_7 target visit condition whenTrue whenFalse,
    getNullishCondBranch getText condition whenTrue whenFalse
      (getNullableConditionTarget getText condition) = None ->
    upgradeConditionalExpression getText v3_7 target visit
      condition whenTrue whenFalse
    = visitEachChild visit (ConditionalExpression condition whenTrue whenFalse).
Proof.
  intros getText v3_7 target visit c t f H.
  unfold upgradeConditionalExpression. rewrite H.
  destruct (target >=? v3_7)%Z; reflexivity.
Qed.

Lemma single_null_target : forall getText s op,
  isEqualityOperator op || isStrictEqualityOperator op = true ->
  getNullableConditionTarget getText (BinaryExpression s op NullKeyword)
  = skipParens s.
Proof.
  intros getText s op Hop. unfold getNullableConditionTarget.
  cbn [skipParens].
  now rewrite (proj1 (null_comparison_classified s op Hop)).
Qed.

(** X18.  A ternary on a single comparison of a subject [s] with [null]
    becomes [s ?? other branch] at a target of [v3_7] or later when the
    comparator finds the guarded branch [s'] equal to [s] (parentheses
    stripped): [s == null ? b : s'] and [s === null ? b : s'], and
    [s != null ? s' : b] and [s !== null ? s' : b]. *)
Theorem X18_single_null_guard_becomes_coalesce :
  forall getText v3_7 target fuel s s' b,
    (target >=? v3_7)%Z = true ->
    isEqualityExpression getText (skipParens s') (skipParens s) = true ->
    let visit := visitor getText v3_7 target fuel in
    let coalesce :=
      left' <- visitEachChild visit (skipParens s) ;;
      right' <- visitEachChild visit b ;;
      Return (createNullishCoalesce left' right') in
    (forall op, op = EqualsEqualsToken \/ op = EqualsEqualsEqualsToken ->
       visitor getText v3_7 target (S fuel)
         (ConditionalExpression (BinaryExpression s op NullKeyword) b s')
       = coalesce)
    /\ (forall op,
          op = ExclamationEqualsToken \/ op = ExclamationEqualsEqualsToken ->
          visitor getText v3_7 target (S fuel)
            (ConditionalExpression (BinaryExpression s op NullKeyword) s' b)
          = coalesce).
Proof.
  intros getText v3_7 target fuel s s' b Ht Heq visit coalesce.
  split; intros op Hop.
  - change (upgradeConditionalExpression getText v3_7 target visit
              (BinaryExpression s op NullKeyword) b s' = coalesce).
    apply (upgradeConditionalExpression_fires getText v3_7 target visit
             _ b s' WhenFalse s' (skipParens s)); auto.
    + apply single_null_target. destruct Hop as [-> | ->]; reflexivity.
    + destruct Hop as [-> | ->]; reflexivity.
    + now rewrite skipParens_idempotent.
  - change (upgradeConditionalExpression getText v3_7 target visit
              (BinaryExpression s op NullKeyword) s' b = coalesce).
    apply (upgradeConditionalExpression_fires getText v3_7 target visit
             _ s' b WhenTrue s' (skipParens s)); auto.
    + apply single_null_target. destruct Hop as [-> | ->]; reflexivity.
    + destruct Hop as [-> | ->]; reflexivity.
    + now rewrite skipParens_idempotent.
Qed.

Lemma X18_single_null_guard_becomes_coalesce_witness :
  visitor printNode Sample.v3_7 Sample.v3_8 1
    (ConditionalExpression
       (BinaryExpression Sample.a EqualsEqualsEqualsToken NullKeyword)
       Sample.b Sample.a)
  = Return Sample.coalesce.
Proof.
  refine (proj1 (X18_single_null_guard_becomes_coalesce printNode
                   Sample.v3_7 Sample.v3_8 0 Sample.a Sample.a Sample.b _ _)
            EqualsEqualsEqualsToken _).
  - reflexivity.
  - reflexivity.
  - right; reflexivity.
Defined.

(** X19.  The compound classifier does not look at the polarity of the
    inner comparisons.  With [s1], [s2], [s3] the occurrences of the
    subject in the comparison with [null], in the comparison with
    [undefined] and in the guarded branch, and the comparator finding
    [s1] equal to [s2] and [s3] equal to [s1]: for any two strict
    operators [op1] and [op2], the ternaries
    [(s1 op1 null) || (s2 op2 undefined) ? b : s3] and
    [(s1 op1 null) && (s2 op2 undefined) ? s3 : b] both become
    [s1 ?? b]; so does [a === null && a === undefined ? a : b]. *)
Theorem X19_compound_guard_ignores_polarity :
  forall getText v3_7 target fuel s1 s2 s3 b u op1 op2,
    (target >=? v3_7)%Z = true ->
    isUndefinedOperand u ->
    kind (skipParens s2) <> SyntaxKind.NullKeyword ->
    isEqualityExpression getText (skipParens s1) (skipParens s2) = true ->
    isEqualityExpression getText (skipParens s3) (skipParens s1) = true ->
    isStrictEqualityOperator op1 = true ->
    isStrictEqualityOperator op2 = true ->
    let visit := visitor getText v3_7 target fuel in
    let coalesce :=
      left' <- visitEachChild visit (skipParens s1) ;;
      right' <- visitEachChild visit b ;;
      Return (createNullishCoalesce left' right') in
    visitor getText v3_7 target (S fuel)
      (ConditionalExpression
         (BinaryExpression (BinaryExpression s1 op1 NullKeyword) BarBarToken
            (BinaryExpression s2 op2 u))
         b s3)
    = coalesce
    /\ visitor getText v3_7 target (S fuel)
         (ConditionalExpression
            (BinaryExpression (BinaryExpression s1 op1 NullKeyword)
               AmpersandAmpersandToken (BinaryExpression s2 op2 u))
            s3 b)
       = coalesce.
Proof.
  intros getText v3_7 target fuel s1 s2 s3 b u op1 op2 Ht Hu Hs H12 H31
    H1 H2 visit coalesce.
  split.
  - change (upgradeConditionalExpression getText v3_7 target visit
              (BinaryExpression (BinaryExpression s1 op1 NullKeyword) BarBarToken
                 (BinaryExpression s2 op2 u)) b s3 = coalesce).
    apply (upgradeConditionalExpression_fires getText v3_7 target visit
             _ b s3 WhenFalse s3 (skipParens s1)); auto.
    + apply compound_guard_target; auto.
    + now rewrite skipParens_idempotent.
  - change (upgradeConditionalExpression getText v3_7 target visit
              (BinaryExpression (BinaryExpression s1 op1 NullKeyword)
                 AmpersandAmpersandToken (BinaryExpression s2 op2 u)) s3 b
            = coalesce).
    apply (upgradeConditionalExpression_fires getText v3_7 target visit
             _ s3 b WhenTrue s3 (skipParens s1)); auto.
    + apply compound_guard_target; auto.
    + now rewrite skipParens_idempotent.
Qed.

Lemma X19_compound_guard_ignores_polarity_witness :
  printNode
    (ConditionalExpression
       (BinaryExpression
          (BinaryExpression Sample.a EqualsEqualsEqualsToken NullKeyword)
          AmpersandAmpersandToken
          (BinaryExpression Sample.a EqualsEqualsEqualsToken Sample.undefined))
       Sample.a Sample.b)
  = "a === null && a === undefined ? a : b"
  /\ visitor printNode Sample.v3_7 Sample.v3_8 1
       (ConditionalExpression
          (BinaryExpression
             (BinaryExpression Sample.a EqualsEqualsEqualsToken NullKeyword)
             AmpersandAmpersandToken
             (BinaryExpression Sample.a EqualsEqualsEqualsToken Sample.undefined))
          Sample.a Sample.b)
     = Return Sample.coalesce.
Proof.
  split; [reflexivity|].
  refine (proj2 (X19_compound_guard_ignores_polarity printNode
                   Sample.v3_7 Sample.v3_8 0 Sample.a Sample.a Sample.a
                   Sample.b Sample.undefined
                   EqualsEqualsEqualsToken EqualsEqualsEqualsToken
                   _ _ _ _ _ _ _)).
  - reflexivity.
  - right; reflexivity.
  - discriminate.
  - reflexivity.
  - reflexivity.
  - reflexivity.
  - reflexivity.
Defined.

(** X20.  A ternary is rewritten only when its condition is itself a
    binary expression under [==], [===], [||], [!=], [!==] or [&&]: the
    visitor leaves every other ternary to [visitEachChild], a ternary on
    a parenthesized comparison such as [(a == null) ? b : a] among them. *)
Theorem X20_ternary_needs_bare_guard_condition :
  forall getText v3_7 target fuel condition whenTrue whenFalse,
    match condition with
    | BinaryExpression _ op _ => isGuardOperator op
    | _ => false
    end = false ->
    visitor getText v3_7 target (S fuel)
      (ConditionalExpression condition whenTrue whenFalse)
    = visitEachChild (visitor getText v3_7 target fuel)
        (ConditionalExpression condition whenTrue whenFalse).
Proof.
  intros getText v3_7 target fuel c t f H.
  change (upgradeConditionalExpression getText v3_7 target
            (visitor getText v3_7 target fuel) c t f
          = visitEachChild (visitor getText v3_7 target fuel)
              (ConditionalExpression c t f)).
  apply upgradeConditionalExpression_passes.
  unfold getNullishCondBranch.
  replace (getNullishTargetBranch c t f) with (@None (Branch * Node));
    [reflexivity|].
  destruct c; try reflexivity.
  destruct operatorToken; try reflexivity; discriminate.
Qed.

Lemma X20_ternary_needs_bare_guard_condition_witness :
  printNode
    (ConditionalExpression
       (ParenthesizedExpression
          (BinaryExpression Sample.a EqualsEqualsToken NullKeyword))
       Sample.b Sample.a)
  = "(a == null) ? b : a"
  /\ visitor printNode Sample.v3_7 Sample.v3_8 4
       (ConditionalExpression
          (ParenthesizedExpression
             (BinaryExpression Sample.a EqualsEqualsToken NullKeyword))
          Sample.b Sample.a)
     = Return
         (ConditionalExpression
            (ParenthesizedExpression
               (BinaryExpression Sample.a EqualsEqualsToken NullKeyword))
            Sample.b Sample.a).
Proof.
  split; [reflexivity|].
  refine (eq_trans
            (X20_ternary_needs_bare_guard_condition printNode
               Sample.v3_7 Sample.v3_8 3
               (ParenthesizedExpression
                  (BinaryExpression Sample.a EqualsEqualsToken NullKeyword))
               Sample.b Sample.a _) _); reflexivity.
Defined.

(** X21.  When the subject of a comparison with [null] stands in the
    branch that is not the guarded one, and the guarded branch does not
    compare equal to it, the ternary is not rewritten:
    [s == null ? s : b] and [s != null ? b : s] are left to
    [visitEachChild]. *)
Theorem X21_subject_in_wrong_branch_not_rewritten :
  forall getText v3_7 target fuel s b,
    isEqualityExpression getText (skipParens b) (skipParens s) = false ->
    let visit := visitor getText v3_7 target fuel in
    (forall op, op = EqualsEqualsToken \/ op = EqualsEqualsEqualsToken ->
       visitor getText v3_7 target (S fuel)
         (ConditionalExpression (BinaryExpression s op NullKeyword) s b)
       = visitEachChild visit
           (ConditionalExpression (BinaryExpression s op NullKeyword) s b))
    /\ (forall op,
          op = ExclamationEqualsToken \/ op = ExclamationEqualsEqualsToken ->
          visitor getText v3_7 target (S fuel)
            (ConditionalExpression (BinaryExpression s op NullKeyword) b s)
          = visitEachChild visit
              (ConditionalExpression (BinaryExpression s op NullKeyword) b s)).
Proof.
  intros getText v3_7 target fuel s b Hneq visit.
  split; intros op Hop.
  - change (upgradeConditionalExpression getText v3_7 target visit
              (BinaryExpression s op NullKeyword) s b
            = visitEachChild visit
                (ConditionalExpression (BinaryExpression s op NullKeyword) s b)).
    apply upgradeConditionalExpression_passes.
    rewrite single_null_target
      by (destruct Hop as [-> | ->]; reflexivity).
    unfold getNullishCondBranch.
    replace (getNullishTargetBranch (BinaryExpression s op NullKeyword) s b)
      with (Some (WhenFalse, b)) by (destruct Hop as [-> | ->]; reflexivity).
    now rewrite skipParens_idempotent, Hneq.
  - change (upgradeConditionalExpression getText v3_7 target visit
              (BinaryExpression s op NullKeyword) b s
            = visitEachChild visit
                (ConditionalExpression (BinaryExpression s op NullKeyword) b s)).
    apply upgradeConditionalExpression_passes.
    rewrite single_null_target
      by (destruct Hop as [-> | ->]; reflexivity).
    unfold getNullishCondBranch.
    replace (getNullishTargetBranch (BinaryExpression s op NullKeyword) b s)
      with (Some (WhenTrue, b)) by (destruct Hop as [-> | ->]; reflexivity).
    now rewrite skipParens_idempotent, Hneq.
Qed.

Lemma X21_subject_in_wrong_branch_not_rewritten_witness :
  printNode
    (ConditionalExpression
       (BinaryExpression Sample.a EqualsEqualsToken NullKeyword)
       Sample.a Sample.b)
  = "a == null ? a : b"
  /\ visitor printNode Sample.v3_7 Sample.v3_8 3
       (ConditionalExpression
          (BinaryExpression Sample.a EqualsEqualsToken NullKeyword)
          Sample.a Sample.b)
     = Return
         (ConditionalExpression
            (BinaryExpression Sample.a EqualsEqualsToken NullKeyword)
            Sample.a Sample.b).
Proof.
  split; [reflexivity|].
  refine (eq_trans
            (proj1 (X21_subject_in_wrong_branch_not_rewritten printNode
                      Sample.v3_7 Sample.v3_8 2 Sample.a Sample.b _)
               EqualsEqualsToken _) _).
  - reflexivity.
  - left; reflexivity.
  - reflexivity.
Defined.

(* ================================================================== *)
(** ** Further facts: the result of the visitor does not depend on fuel *)
(* ================================================================== *)

Lemma bind_refines : forall (A B : Type) (m m' : Outcome A)
    (k k' : A -> Outcome B),
  (m <> OutOfFuel -> m' = m) ->
  (forall a, m = Return a -> k a <> OutOfFuel -> k' a = k a) ->
  bind m k <> OutOfFuel ->
  bind m' k' = bind m k.
Proof.
  intros A B m m' k k' Hm Hk H. destruct m as [a|msg|]; simpl in *.
  - rewrite Hm by discriminate. simpl. now apply Hk.
  - rewrite Hm by discriminate. reflexivity.
  - contradiction.
Qed.

Section Refines.

Variables visit visit' : Node -> Outcome Node.
Hypothesis visit_refines :
  forall node, visit node <> OutOfFuel -> visit' node = visit node.

Lemma visitNodes_refines : forall nodes,
  visitNodes visit nodes <> OutOfFuel ->
  visitNodes visit' nodes = visitNodes visit nodes.
Proof.
  induction nodes as [|node nodes IH]; simpl; intro H; [reflexivity|].
  apply bind_refines; auto. intros a _ Ha.
  apply bind_refines; auto.
Qed.

Lemma visitEachChild_refines : forall node,
  visitEachChild visit node <> OutOfFuel ->
  visitEachChild visit' node = visitEachChild visit node.
Proof.
  destruct node; simpl; intro H; try reflexivity;
    repeat first
      [ reflexivity
      | apply bind_refines;
        [ first [ apply visit_refines | apply visitNodes_refines ]
        | intros ? _ ?
        | assumption ] ].
Qed.

Lemma createOptionalChain_refines : forall chain left,
  createOptionalChainByChainableExpression visit chain left <> OutOfFuel ->
  createOptionalChainByChainableExpression visit' chain left
  = createOptionalChainByChainableExpression visit chain left.
Proof.
  intros chain left; destruct chain; simpl; intro H;
    repeat first
      [ reflexivity
      | apply bind_refines;
        [ first [ apply visitEachChild_refines | apply visitNodes_refines
                | reflexivity ]
        | intros ? _ ?
        | assumption ] ].
Qed.

Lemma createOptionalChainsFrom_refines : forall rest lastChain,
  createOptionalChainsFrom visit lastChain rest <> OutOfFuel ->
  createOptionalChainsFrom visit' lastChain rest
  = createOptionalChainsFrom visit lastChain rest.
Proof.
  induction rest as [|chain rest IH]; intros lastChain H; simpl in *;
    [reflexivity|].
  apply bind_refines; auto using createOptionalChain_refines.
Qed.

Lemma upgradeBinaryExpression_refines : forall getText expr,
  upgradeBinaryExpression getText visit expr <> OutOfFuel ->
  upgradeBinaryExpression getText visit' expr
  = upgradeBinaryExpression getText visit expr.
Proof.
  intros getText expr; unfold upgradeBinaryExpression.
  destruct (getOptionalChains getText expr) as [[|first rest]|];
    auto using visitEachChild_refines.
  unfold createOptionalChains. intro H.
  apply bind_refines;
    auto using createOptionalChain_refines, createOptionalChainsFrom_refines.
Qed.

Lemma upgradeConditionalExpression_refines :
  forall getText v3_7 target condition whenTrue whenFalse,
    upgradeConditionalExpression getText v3_7 target visit
      condition whenTrue whenFalse <> OutOfFuel ->
    upgradeConditionalExpression getText v3_7 target visit'
      condition whenTrue whenFalse
    = upgradeConditionalExpression getText v3_7 target visit
        condition whenTrue whenFalse.
Proof.
  intros getText v3_7 target c t f; unfold upgradeConditionalExpression.
  destruct (target >=? v3_7)%Z; [|apply visitEachChild_refines].
  destruct (getNullishCondBranch getText c t f _) as [[branch b]|];
    [|apply visitEachChild_refines].
  intro H.
  apply bind_refines; auto using visitEachChild_refines. intros a _ Ha.
  apply bind_refines; auto using visitEachChild_refines.
Qed.

End Refines.

Lemma visitor_more_fuel : forall getText v3_7 target fuel node,
  visitor getText v3_7 target fuel node <> OutOfFuel ->
  visitor getText v3_7 target (S fuel) node
  = visitor getText v3_7 target fuel node.
Proof.
  intros getText v3_7 target fuel; induction fuel as [|fuel IH];
    intros node H; [contradiction|].
  destruct node;
    try (apply (visitEachChild_refines _ _ IH); exact H).
  - apply (upgradeBinaryExpression_refines _ _ IH); exact H.
  - apply (upgradeConditionalExpression_refines _ _ IH); exact H.
Qed.

Lemma visitor_fuel_le : forall getText v3_7 target fuel fuel' node,
  fuel <= fuel' ->
  visitor getText v3_7 target fuel node <> OutOfFuel ->
  visitor getText v3_7 target fuel' node
  = visitor getText v3_7 target fuel node.
Proof.
  intros getText v3_7 target fuel fuel' node Hle H.
  induction Hle as [|fuel' Hle IH]; [reflexivity|].
  rewrite visitor_more_fuel; [exact IH|]. now rewrite IH.
Qed.

(** The visitor, with more fuel than the height of the tree, gives
    one result whatever the fuel: the depth bound of the model does not
    show in it. *)
Theorem visitor_result_independent_of_fuel :
  forall getText v3_7 target fuel fuel' node,
    height node < fuel ->
    height node < fuel' ->
    visitor getText v3_7 target fuel node
    = visitor getText v3_7 target fuel' node.
Proof.
  intros getText v3_7 target fuel fuel' node H H'.
  assert (Hends : forall f, height node < f ->
            visitor getText v3_7 target f node <> OutOfFuel).
  { intros f Hf E.
    pose proof (visitor_ends getText v3_7 target f node Hf) as He.
    rewrite E in He. exact He. }
  destruct (Nat.le_ge_cases fuel fuel') as [Hle | Hle].
  - symmetry. apply visitor_fuel_le; auto.
  - apply visitor_fuel_le; auto.
Qed.

Lemma visitor_result_independent_of_fuel_example :
  visitor printNode Sample.v3_7 Sample.v3_8 5 Sample.long_guard
  = visitor printNode Sample.v3_7 Sample.v3_8 9 Sample.long_guard.
Proof.
  apply (visitor_result_independent_of_fuel printNode
           Sample.v3_7 Sample.v3_8 5 9 Sample.long_guard); simpl; lia.
Qed.

(* ================================================================== *)
(** ** Further facts: the pass loop *)
(* ================================================================== *)

Lemma passes_return_quiesces :
  forall applyChanges pass target fuel document i text,
    passes applyChanges pass target fuel document i = Return text ->
    exists n, n <= fuel /\ quiesces applyChanges pass target document n text.
Proof.
  intros applyChanges pass target fuel; induction fuel as [|fuel IH];
    intros document i text H; [discriminate|].
  simpl in H. destruct (pass target document) as [result| |] eqn:P;
    simpl in H; try discriminate.
  destruct (needAnotherPass result) eqn:F.
  - apply IH in H. destruct H as (n & Hn & Q).
    exists (S n); split; [lia|]. eapply quiesces_again; eauto.
  - injection H as <-. exists 1; split; [lia|]. now apply quiesces_done.
Qed.

(** X22.  [upgrade] returns a text exactly when, within the passes it is
    given, one pass reports that no other pass is needed after all the
    passes before it asked for another; the text is the document that
    pass leaves. *)
Theorem X22_upgrade_returns_iff_quiesces :
  forall applyChanges pass fuel code target text,
    upgrade applyChanges pass fuel code target = Return text
    <-> exists n,
          n <= fuel /\ quiesces applyChanges pass target code n text.
Proof.
  intros applyChanges pass fuel code target text; unfold upgrade; split.
  - apply passes_return_quiesces.
  - intros (n & Hn & Q).
    now apply (quiesces_passes applyChanges pass target code n).
Qed.

Lemma X22_upgrade_returns_iff_quiesces_witness :
  exists n,
    n <= 5
    /\ quiesces Sample.applyChanges Sample.pass Sample.v3_8
         "a && a.b && a.b.c" n "a?.b?.c".
Proof.
  apply (proj1 (X22_upgrade_returns_iff_quiesces Sample.applyChanges
                  Sample.pass 5 "a && a.b && a.b.c" Sample.v3_8 "a?.b?.c")).
  reflexivity.
Defined.

(** X23.  [upgrade] raises no exception of its own: when it throws, a pass
    threw that exception on some document; and an exception of the first
    pass is the outcome of [upgrade]. *)
Theorem X23_upgrade_throws_what_a_pass_throws :
  forall applyChanges pass fuel code target msg,
    (upgrade applyChanges pass fuel code target = Throw msg ->
     exists document, pass target document = Throw msg)
    /\ (pass target code = Throw msg ->
        upgrade applyChanges pass (S fuel) code target = Throw msg).
Proof.
  intros applyChanges pass fuel code target msg; unfold upgrade; split.
  - apply passes_throw_from_pass.
  - intro H; simpl. now rewrite H.
Qed.

Lemma X23_upgrade_throws_what_a_pass_throws_witness :
  upgrade Sample.applyChanges Sample2.pass 4 "a && a.b && a.b.#c" Sample.v3_8
  = Throw "invalid cast: PrivateIdentifier"
  /\ exists document,
       Sample2.pass Sample.v3_8 document
       = Throw "invalid cast: PrivateIdentifier".
Proof.
  split; [reflexivity|].
  apply (proj1 (X23_upgrade_throws_what_a_pass_throws Sample.applyChanges
                  Sample2.pass 4 "a && a.b && a.b.#c" Sample.v3_8
                  "invalid cast: PrivateIdentifier")).
  reflexivity.
Defined.

(* ================================================================== *)
(** ** Further facts: chains that are matched in part, or wrongly *)
(* ================================================================== *)

Lemma checkChains_from_first : forall getText steps first,
  checkChains getText first (linksFrom (chainNode first) steps) = true.
Proof.
  intros getText steps first; destruct steps as [|step steps];
    [reflexivity|].
  simpl linksFrom. simpl checkChains.
  replace (chainExpression (linkOn (chainNode first) step))
    with (chainNode first) by (destruct step; reflexivity).
  rewrite isEqualityExpression_refl; simpl.
  replace (match linkOn (chainNode first) step with
           | PropertyAccess _ _ name => isPrivateIdentifier name
           | _ => false
           end) with false by (destruct step; reflexivity).
  apply checkChains_linksFrom.
Qed.

(** X24.  A guard chain whose first link is a private member access
    [r.#n], however long the chain built on it, is matched, and the
    visitor throws [invalid cast: PrivateIdentifier] on it. *)
Theorem X24_private_first_link_always_throws :
  forall getText v3_7 target fuel x root name steps,
    isAmpersandAmpersandExpression x = false ->
    noCandidate (target <? v3_7)%Z root = true ->
    height root <= fuel ->
    let first := PropertyAccess root false (PrivateIdentifierName name) in
    visitor getText v3_7 target (S fuel)
      (guardChain x
         (map chainNode (first :: linksFrom (chainNode first) steps)))
    = Throw "invalid cast: PrivateIdentifier".
Proof.
  intros getText v3_7 target fuel x root name steps Hx Hroot Hh first.
  assert (Hbinary : exists l r,
    guardChain x (map chainNode (first :: linksFrom (chainNode first) steps))
    = BinaryExpression l AmpersandAmpersandToken r).
  { destruct (rev_case _ (first :: linksFrom (chainNode first) steps))
      as [E | (init & c & E)]; [discriminate|].
    rewrite E, map_app; simpl map at 2. rewrite guardChain_snoc. eauto. }
  destruct Hbinary as (l & r & Hbinary).
  assert (Hvisit :
    visitor getText v3_7 target (S fuel)
      (guardChain x (map chainNode (first :: linksFrom (chainNode first) steps)))
    = upgradeBinaryExpression getText (visitor getText v3_7 target fuel)
        (guardChain x
           (map chainNode (first :: linksFrom (chainNode first) steps)))).
  { rewrite Hbinary. reflexivity. }
  rewrite Hvisit. unfold upgradeBinaryExpression.
  rewrite (getOptionalChains_guardChain getText x _ Hx).
  rewrite checkChains_from_first.
  unfold createOptionalChains, first; simpl.
  rewrite (visitEachChild_noCandidate getText v3_7 target (target <? v3_7)%Z);
    auto.
Qed.

Lemma X24_private_first_link_always_throws_witness :
  printNode
    (guardChain Sample.a
       (map chainNode
          (PropertyAccess Sample.a false (PrivateIdentifierName "b")
           :: linksFrom
                (PropertyAccessExpression Sample.a false
                   (PrivateIdentifierName "b"))
                [MemberStep "c"])))
  = "a && a.#b && a.#b.c"
  /\ visitor printNode Sample.v3_7 Sample.v3_8 1
       (guardChain Sample.a
          (map chainNode
             (PropertyAccess Sample.a false (PrivateIdentifierName "b")
              :: linksFrom
                   (PropertyAccessExpression Sample.a false
                      (PrivateIdentifierName "b"))
                   [MemberStep "c"])))
     = Throw "invalid cast: PrivateIdentifier".
Proof.
  split; [reflexivity|].
  apply (X24_private_first_link_always_throws printNode
           Sample.v3_7 Sample.v3_8 0 Sample.a Sample.a "b" [MemberStep "c"]).
  - reflexivity.
  - reflexivity.
  - simpl; lia.
Defined.

(** X25.  A guard chain followed by a last operand that is no access is
    not matched as a whole, but its head is: [x && c1 && ... && ck && y]
    becomes [chain && y] in one call of the visitor, [chain] the optional
    chain of [c1 ... ck], under the conditions of X11 on the head.  Mixed
    conditions are rewritten in part. *)
Theorem X25_mixed_chain_rewritten_in_part :
  forall getText v3_7 target fuel x first rest y,
    isAmpersandAmpersandExpression x = false ->
    linked getText (first :: rest) ->
    isPrivateLink first = false ->
    noCandidate (target <? v3_7)%Z (chainExpression first) = true ->
    forallb (linkNoCandidate (target <? v3_7)%Z) (first :: rest) = true ->
    isChainableExpression y = false ->
    noCandidate (target <? v3_7)%Z y = true ->
    height (collapsed first rest) <= fuel ->
    height y <= fuel ->
    visitor getText v3_7 target (S (S fuel))
      (BinaryExpression
         (guardChain x (map chainNode (first :: rest)))
         AmpersandAmpersandToken y)
    = Return
        (BinaryExpression (collapsed first rest) AmpersandAmpersandToken y).
Proof.
  intros getText v3_7 target fuel x first rest y Hx L Hp Hroot Hs Hy Hqy
    Hh Hhy.
  change (upgradeBinaryExpression getText
            (visitor getText v3_7 target (S fuel))
            (BinaryExpression
               (guardChain x (map chainNode (first :: rest)))
               AmpersandAmpersandToken y)
          = Return
              (BinaryExpression (collapsed first rest)
                 AmpersandAmpersandToken y)).
  unfold upgradeBinaryExpression.
  assert (Hnone :
    getOptionalChains getText
      (BinaryExpression
         (guardChain x (map chainNode (first :: rest)))
         AmpersandAmpersandToken y) = None).
  { unfold getOptionalChains. simpl collectChains.
    apply isChainableExpression_asChainable in Hy. now rewrite Hy. }
  rewrite Hnone. cbn [visitEachChild].
  rewrite (guardChain_collapses getText v3_7 target fuel x first rest);
    auto.
  cbn [bind].
  assert (Hlast : visitor getText v3_7 target (S fuel) y = Return y).
  { apply (visitor_noCandidate getText v3_7 target (target <? v3_7)%Z);
      auto; lia. }
  rewrite Hlast. reflexivity.
Qed.

Lemma X25_mixed_chain_rewritten_in_part_witness :
  printNode
    (BinaryExpression
       (guardChain Sample.a
          (map chainNode
             [PropertyAccess Sample.a false (IdentifierName "b");
              ElementAccess Sample.a_b false (StringLiteral "c")]))
       AmpersandAmpersandToken Sample.x)
  = "a && a.b && a.b[" ++ dquote ++ "c" ++ dquote ++ "] && x"
  /\ visitor printNode Sample.v3_7 Sample.v3_8 4
       (BinaryExpression
          (guardChain Sample.a
             (map chainNode
                [PropertyAccess Sample.a false (IdentifierName "b");
                 ElementAccess Sample.a_b false (StringLiteral "c")]))
          AmpersandAmpersandToken Sample.x)
     = Return
         (BinaryExpression
            (ElementAccessExpression (Sample.qdot Sample.a "b") true
               (StringLiteral "c"))
            AmpersandAmpersandToken Sample.x)
  /\ printNode
       (BinaryExpression
          (ElementAccessExpression (Sample.qdot Sample.a "b") true
             (StringLiteral "c"))
          AmpersandAmpersandToken Sample.x)
     = "a?.b?.[" ++ dquote ++ "c" ++ dquote ++ "] && x".
Proof.
  split; [reflexivity|]. split; [|reflexivity].
  apply (X25_mixed_chain_rewritten_in_part printNode
           Sample.v3_7 Sample.v3_8 2 Sample.a
           (PropertyAccess Sample.a false (IdentifierName "b"))
           [ElementAccess Sample.a_b false (StringLiteral "c")]
           Sample.x).
  - reflexivity.
  - apply checkChains_linked. reflexivity.
  - reflexivity.
  - reflexivity.
  - reflexivity.
  - reflexivity.
  - reflexivity.
  - simpl; lia.
  - simpl; lia.
Defined.

Lemma checkChains_private_last : forall getText rest first receiver q name,
  checkChains getText first
    (rest ++ [PropertyAccess receiver q (PrivateIdentifierName name)]) = false.
Proof.
  intros getText rest; induction rest as [|chain rest IH];
    intros first receiver q name; simpl.
  - destruct (isEqualityExpression getText (chainNode first) receiver);
      reflexivity.
  - destruct (isEqualityExpression getText (chainNode first)
                (chainExpression chain)); simpl; [|reflexivity].
    destruct (match chain with
              | PropertyAccess _ _ name0 => isPrivateIdentifier name0
              | _ => false
              end); [reflexivity | apply IH].
Qed.

(** X3.  When the last right operand of a guard chain is a private member
    access, the chain as a whole is not matched, but its head is
    collapsed and the private access is kept:
    [x && c1 && ... && ck && p.#n] becomes [chain && p.#n] in one call
    of the visitor, [chain] the optional chain of [c1 ... ck], under the
    conditions of X11 on the head. *)
Theorem X3_private_last_link_head_collapsed :
  forall getText v3_7 target fuel x first rest receiver q name,
    isAmpersandAmpersandExpression x = false ->
    linked getText (first :: rest) ->
    isPrivateLink first = false ->
    noCandidate (target <? v3_7)%Z (chainExpression first) = true ->
    forallb (linkNoCandidate (target <? v3_7)%Z) (first :: rest) = true ->
    noCandidate (target <? v3_7)%Z receiver = true ->
    height (collapsed first rest) <= fuel ->
    let private :=
      PropertyAccessExpression receiver q (PrivateIdentifierName name) in
    height private <= fuel ->
    getOptionalChains getText
      (BinaryExpression
         (guardChain x (map chainNode (first :: rest)))
         AmpersandAmpersandToken private) = None
    /\ visitor getText v3_7 target (S (S fuel))
         (BinaryExpression
            (guardChain x (map chainNode (first :: rest)))
            AmpersandAmpersandToken private)
       = Return
           (BinaryExpression (collapsed first rest)
              AmpersandAmpersandToken private).
Proof.
  intros getText v3_7 target fuel x first rest receiver q name Hx L Hp Hroot
    Hs Hrecv Hh private Hhp.
  assert (Hnone :
    getOptionalChains getText
      (BinaryExpression
         (guardChain x (map chainNode (first :: rest)))
         AmpersandAmpersandToken private) = None).
  { change (BinaryExpression
              (guardChain x (map chainNode (first :: rest)))
              AmpersandAmpersandToken private)
      with (BinaryExpression
              (guardChain x (map chainNode (first :: rest)))
              AmpersandAmpersandToken
              (chainNode
                 (PropertyAccess receiver q (PrivateIdentifierName name)))).
    rewrite <- guardChain_snoc.
    change [chainNode (PropertyAccess receiver q (PrivateIdentifierName name))]
      with (map chainNode
              [PropertyAccess receiver q (PrivateIdentifierName name)]).
    rewrite <- map_app.
    rewrite (getOptionalChains_guardChain getText x _ Hx).
    cbn [app]. now rewrite checkChains_private_last. }
  split; [exact Hnone|].
  change (upgradeBinaryExpression getText
            (visitor getText v3_7 target (S fuel))
            (BinaryExpression
               (guardChain x (map chainNode (first :: rest)))
               AmpersandAmpersandToken private)
          = Return
              (BinaryExpression (collapsed first rest)
                 AmpersandAmpersandToken private)).
  unfold upgradeBinaryExpression. rewrite Hnone. cbn [visitEachChild].
  rewrite (guardChain_collapses getText v3_7 target fuel x first rest);
    auto.
  cbn [bind].
  assert (Hlast : visitor getText v3_7 target (S fuel) private = Return private).
  { apply (visitor_noCandidate getText v3_7 target (target <? v3_7)%Z);
      auto; lia. }
  rewrite Hlast. reflexivity.
Qed.

Lemma X3_private_last_link_head_collapsed_witness :
  visitor printNode Sample.v3_7 Sample.v3_8 4 Sample.private_tail
  = Return Sample2.private_rest
  /\ printNode Sample.private_tail = "a && a.b && a.b.#c"
  /\ printNode Sample2.private_rest = "a?.b && a.b.#c".
Proof.
  split; [|split; reflexivity].
  refine (proj2 (X3_private_last_link_head_collapsed printNode
                   Sample.v3_7 Sample.v3_8 2 Sample.a
                   (PropertyAccess Sample.a false (IdentifierName "b")) []
                   Sample.a_b false "c" _ _ _ _ _ _ _ _)).
  - reflexivity.
  - apply checkChains_linked. reflexivity.
  - reflexivity.
  - reflexivity.
  - reflexivity.
  - reflexivity.
  - simpl; lia.
  - simpl; lia.
Defined.
